(** * FaissKBService: the FAISS knowledge-base service of Langchain-Chatchat

    A shallow embedding of
    [libs/chatchat-server/chatchat/server/knowledge_base/kb_service/faiss_kb_service.py].

    Python objects that the service mutates (the pooled vector store, the
    file system, the pool registry) live in one explicit [World]; a method
    is a function from a world to an outcome and a new world.  An exception
    is an outcome, and the world that comes with it is the one the
    exception left behind. *)

From Stdlib Require Import String Ascii List ZArith Lia Bool.
From stdpp Require Import base option list strings gmap fin_maps.

Import ListNotations.
Local Open Scope string_scope.
Local Open Scope list_scope.

(** ** Python values *)

(** The exceptions that the modelled code and its libraries raise. *)
Inductive Exn : Type :=
  | EmbeddingError
  | ConstructionError
  | ValueError
  | KeyError
  | AttributeError
  | FileNotFoundError
  | NotADirectoryError
  | FileExistsError
  | OSError.

(** [str.lower()], on the ASCII range. *)
Definition lower_ascii (c : ascii) : ascii :=
  let n := nat_of_ascii c in
  if (65 <=? n)%nat && (n <=? 90)%nat then ascii_of_nat (n + 32) else c.

Fixpoint lower (s : string) : string :=
  match s with
  | EmptyString => EmptyString
  | String c s' => String (lower_ascii c) (lower s')
  end.

(** [str.replace(old, new)] for one-character [old] and [new]. *)
Fixpoint replace (old new : ascii) (s : string) : string :=
  match s with
  | EmptyString => EmptyString
  | String c s' =>
      String (if Ascii.eqb c old then new else c) (replace old new s')
  end.

(** [c.isalnum()], on the ASCII range. *)
Definition isalnum (c : ascii) : bool :=
  let n := nat_of_ascii c in
  ((48 <=? n)%nat && (n <=? 57)%nat)
  || ((65 <=? n)%nat && (n <=? 90)%nat)
  || ((97 <=? n)%nat && (n <=? 122)%nat).

Fixpoint string_forallb (p : ascii -> bool) (s : string) : bool :=
  match s with
  | EmptyString => true
  | String c s' => p c && string_forallb p s'
  end.

(** [langchain.docstore.document.Document].  The metadata that the service
    reads is the [source], a file name: metadata values are strings. *)
Record Document : Type := mkDocument {
  page_content : string;
  metadata : gmap string string
}.

(** [KnowledgeFile], as far as the service reads it. *)
Record KnowledgeFile : Type := mkKnowledgeFile {
  filename : string;
  knowledge_base_name : string
}.

(** An insertion-ordered Python [dict] with string keys. *)
Section Dict.
Context {V : Type}.

Definition dict_keys (d : list (string * V)) : list string := map fst d.

Definition dict_mem (k : string) (d : list (string * V)) : bool :=
  existsb (String.eqb k) (dict_keys d).

(** [d.get(k)] *)
Fixpoint dict_get (k : string) (d : list (string * V)) : option V :=
  match d with
  | [] => None
  | (k', v) :: d' => if String.eqb k k' then Some v else dict_get k d'
  end.

(** [d[k] = v] *)
Fixpoint dict_set (k : string) (v : V) (d : list (string * V))
  : list (string * V) :=
  match d with
  | [] => [(k, v)]
  | (k', v') :: d' =>
      if String.eqb k k' then (k, v) :: d' else (k', v') :: dict_set k v d'
  end.

(** [{**d, **new}] *)
Definition dict_update (d new : list (string * V)) : list (string * V) :=
  fold_left (fun acc kv => dict_set (fst kv) (snd kv) acc) new d.

(** [d.pop(k)], which raises [KeyError] on a missing key. *)
Definition dict_pop (k : string) (d : list (string * V))
  : Exn + list (string * V) :=
  if dict_mem k d
  then inr (List.filter (fun kv => negb (String.eqb k (fst kv))) d)
  else inl KeyError.
End Dict.

(** Path names, as lists of components below the file-system root. *)
Definition path : Type := list string.

(** ** External collaborators

    What the service consumes through narrow interfaces: the embedding
    model, the identifier source of the vector store and the configured
    root directory of the knowledge bases. *)
Class Collaborators : Type := {
  (** numeric vectors *)
  Vec : Type;
  (** [Settings.basic_settings.KB_ROOT_PATH] *)
  kb_root : path;
  (** the n-th value of [str(uuid.uuid4())] *)
  uuid4 : nat -> string;
  (** [Embeddings.embed_documents] of the model of a given name; the outer
      failure is that of obtaining the model at all *)
  get_Embeddings : string -> Exn + (list string -> Exn + list Vec)
}.

(** ** The vector store

    [langchain_community.vectorstores.faiss.FAISS] with its
    [InMemoryDocstore], as far as the service calls them.  A method takes
    the store and returns an outcome with the store it leaves behind. *)
Record FAISS `{Collaborators} : Type := mkFAISS {
  (** [vs.embeddings.embed_documents] *)
  embeddings : list string -> Exn + list Vec;
  (** the vectors of the faiss index, by position *)
  index : list Vec;
  (** [vs.docstore._dict] *)
  docstore : list (string * Document);
  (** position in the faiss index to docstore identifier *)
  index_to_docstore_id : list string
}.

Section VectorStore.
Context `{Collaborators}.

Definition set_index (ix : list Vec) (vs : FAISS) : FAISS :=
  mkFAISS _ (embeddings vs) ix (docstore vs) (index_to_docstore_id vs).

Definition set_docstore (d : list (string * Document)) (vs : FAISS) : FAISS :=
  mkFAISS _ (embeddings vs) (index vs) d (index_to_docstore_id vs).

Definition set_index_to_docstore_id (ids : list string) (vs : FAISS) : FAISS :=
  mkFAISS _ (embeddings vs) (index vs) (docstore vs) ids.

(** A store with no documents, bound to an embedding function. *)
Definition empty_store (emb : list string -> Exn + list Vec) : FAISS :=
  mkFAISS _ emb [] [] [].

Definition enumerate {A : Type} (l : list A) : list (nat * A) :=
  combine (seq 0 (length l)) l.

Definition mem_string (x : string) (l : list string) : bool :=
  existsb (String.eqb x) l.

Definition mem_nat (x : nat) (l : list nat) : bool :=
  existsb (Nat.eqb x) l.

(** [InMemoryDocstore.add]: refuses identifiers that already exist. *)
Definition docstore_add (new : list (string * Document)) (vs : FAISS)
  : (Exn + unit) * FAISS :=
  if existsb (fun k => dict_mem k (docstore vs)) (dict_keys new)
  then (inl ValueError, vs)
  else (inr tt, set_docstore (dict_update (docstore vs) new) vs).

(** [FAISS.add_embeddings], with [FAISS.__add] inlined; [fresh] are the
    identifiers that [uuid4] hands out for this call. *)
Definition faiss_add_embeddings (fresh : list string)
    (text_embeddings : list (string * Vec))
    (metadatas : list (gmap string string)) (vs : FAISS)
  : (Exn + list string) * FAISS :=
  match text_embeddings with
  | [] => (inl ValueError, vs)  (* nothing to unpack into texts, embeddings *)
  | _ :: _ =>
      let texts := map fst text_embeddings in
      let vectors := map snd text_embeddings in
      if negb (length texts =? length metadatas)%nat
      then (inl ValueError, vs)
      else
        let documents :=
          map (fun tm => mkDocument (fst tm) (snd tm)) (combine texts metadatas) in
        let vs1 := set_index (index vs ++ vectors) vs in
        let ids := firstn (length texts) fresh in
        match docstore_add (dict_update [] (combine ids documents)) vs1 with
        | (inl e, vs2) => (inl e, vs2)
        | (inr _, vs2) =>
            (inr ids,
             set_index_to_docstore_id (index_to_docstore_id vs2 ++ ids) vs2)
        end
  end.

(** The loop [for _id in ids: self._dict.pop(_id)]. *)
Fixpoint pop_all (ids : list string) (d : list (string * Document))
  : (Exn + unit) * list (string * Document) :=
  match ids with
  | [] => (inr tt, d)
  | i :: ids' =>
      match dict_pop i d with
      | inl e => (inl e, d)
      | inr d' => pop_all ids' d'
      end
  end.

(** [InMemoryDocstore.delete]: refuses a call that names no stored
    identifier at all, then pops every given identifier. *)
Definition docstore_delete (ids : list string) (vs : FAISS)
  : (Exn + unit) * FAISS :=
  if negb (existsb (fun i => dict_mem i (docstore vs)) ids)
  then (inl ValueError, vs)
  else
    let '(r, d) := pop_all ids (docstore vs) in
    (r, set_docstore d vs).

(** [{id_: idx for idx, id_ in self.index_to_docstore_id.items()}] *)
Definition reversed_index (vs : FAISS) : list (string * nat) :=
  dict_update []
    (map (fun p => (snd p, fst p)) (enumerate (index_to_docstore_id vs))).

(** The entries of [l] at the positions outside [ps]. *)
Definition drop_positions {A : Type} (ps : list nat) (l : list A) : list A :=
  map snd (List.filter (fun p => negb (mem_nat (fst p) ps)) (enumerate l)).

(** [FAISS.delete]: raises [ValueError], before it changes anything, when
    an identifier is not in the index. *)
Definition faiss_delete (ids : list string) (vs : FAISS) : (Exn + bool) * FAISS :=
  if existsb (fun i => negb (mem_string i (index_to_docstore_id vs))) ids
  then (inl ValueError, vs)
  else
    let rev := reversed_index vs in
    let index_to_delete :=
      map (fun i => default 0%nat (dict_get i rev)) ids in
    let vs1 := set_index (drop_positions index_to_delete (index vs)) vs in
    match docstore_delete ids vs1 with
    | (inl e, vs2) => (inl e, vs2)
    | (inr _, vs2) =>
        (inr true,
         set_index_to_docstore_id
           (drop_positions index_to_delete (index_to_docstore_id vs2)) vs2)
    end.
End VectorStore.

(** The retriever that [get_Retriever("ensemble").from_vectorstore] builds
    over a store: a function from the query to the relevant documents,
    which reads the store and may fail. *)
Class Retrievers `{Collaborators} : Type := {
  (** what a retriever returns for one relevant document *)
  Hit : Type;
  (** similarity thresholds *)
  Score : Type;
  from_vectorstore : FAISS -> Z -> Score -> string -> Exn + list Hit
}.

(** ** The world *)

(** A key of the pool: the tuple [(kb_name, vector_name)]. *)
Definition Key : Type := string * option string.

(** What the service and its collaborators do, in the order they do it. *)
Inductive Event : Type :=
  | EvPoolLock
  | EvPoolUnlock
  | EvPoolPop (k : Key)
  | EvAcquire (k : Key)
  | EvRelease (k : Key)
  | EvEmbedDocuments (texts : list string)
  | EvAddEmbeddings (k : Key)
  | EvDelete (k : Key) (ids : list string)
  | EvSaveLocal (p : path)
  | EvRetrieve (query : string).

(** What a path names on disk. *)
Inductive Node `{Collaborators} : Type :=
  | Dir
  | RawFile
  | FaissFile (vectors : list Vec)
  | PklFile (d : list (string * Document)) (ids : list string).

Record World `{Collaborators} : Type := mkWorld {
  (** the registry of [kb_faiss_pool]: the loaded store of each key *)
  pool : gmap Key FAISS;
  (** the file system *)
  fs : gmap path Node;
  (** the directories whose removal the operating system refuses *)
  rm_denied : gset path;
  (** the document catalog: the (knowledge base, file name) pairs on record *)
  catalog : gset (string * string);
  (** how many identifiers [uuid4] has handed out *)
  uuid_next : nat;
  trace : list Event
}.

Section Monad.
Context `{Collaborators}.

Definition set_pool (p : gmap Key FAISS) (w : World) : World :=
  mkWorld _ p (fs w) (rm_denied w) (catalog w) (uuid_next w) (trace w).

Definition set_fs (f : gmap path Node) (w : World) : World :=
  mkWorld _ (pool w) f (rm_denied w) (catalog w) (uuid_next w) (trace w).

Definition set_uuid_next (n : nat) (w : World) : World :=
  mkWorld _ (pool w) (fs w) (rm_denied w) (catalog w) n (trace w).

Definition log (e : Event) (w : World) : World :=
  mkWorld _ (pool w) (fs w) (rm_denied w) (catalog w) (uuid_next w)
    (trace w ++ [e]).

(** A computation: an outcome and the world it leaves behind. *)
Definition M (A : Type) : Type := World -> (Exn + A) * World.

Definition ret {A : Type} (a : A) : M A := fun w => (inr a, w).

Definition bind {A B : Type} (m : M A) (k : A -> M B) : M B :=
  fun w =>
    match m w with
    | (inl e, w') => (inl e, w')
    | (inr a, w') => k a w'
    end.

(** [try: m finally: fin] *)
Definition finally {A : Type} (m : M A) (fin : World -> World) : M A :=
  fun w => let '(r, w') := m w in (r, fin w').

(** [try: m except Exception: pass] *)
Definition try_pass (m : M unit) : M unit :=
  fun w => let '(_, w') := m w in (inr tt, w').

Definition emit (e : Event) : M unit := fun w => (inr tt, log e w).

Definition lift {A : Type} (r : Exn + A) : M A := fun w => (r, w).
End Monad.

Declare Scope py_scope.
Delimit Scope py_scope with py.
Notation "x <- c1 ;; c2" := (bind c1 (fun x => c2))
  (at level 100, c1 at next level, right associativity) : py_scope.
Notation "c1 ;; c2" := (bind c1 (fun _ => c2))
  (at level 100, right associativity) : py_scope.

(** ** The file system *)
Section FileSystem.
Context `{Collaborators}.

Definition is_dir (n : option Node) : bool :=
  match n with Some Dir => true | _ => false end.

Definition is_file (n : option Node) : bool :=
  match n with Some Dir | None => false | Some _ => true end.

(** [os.path.exists] *)
Definition path_exists (p : path) (w : World) : bool :=
  match fs w !! p with Some _ => true | None => false end.


Fixpoint prefixb (p q : path) : bool :=
  match p, q with
  | [], _ => true
  | _ :: _, [] => false
  | a :: p', b :: q' => String.eqb a b && prefixb p' q'
  end.

(** The paths from the root down to [p], [p] included, the root not. *)
Definition ancestors_and_self (p : path) : list path :=
  map (fun n => firstn n p) (seq 1 (length p)).

(** The removal of the tree at [p] is refused: the tree holds a directory
    whose removal the operating system refuses. *)
Definition removal_refused (p : path) (w : World) : Prop :=
  set_Exists (fun q => prefixb p q = true /\ is_dir (fs w !! q) = true)
    (rm_denied w).

(** [shutil.rmtree(p)]: raises when [p] is not a directory or when the
    removal is refused, and then removes nothing. *)
Definition rmtree (p : path) : M unit :=
  fun w =>
    match fs w !! p with
    | None => (inl FileNotFoundError, w)
    | Some Dir =>
        if decide (removal_refused p w) then (inl OSError, w)
        else (inr tt,
              set_fs (filter (fun kv => negb (prefixb p (fst kv))) (fs w)) w)
    | Some _ => (inl NotADirectoryError, w)
    end.

(** [os.makedirs(p, exist_ok=exist_ok)] *)
Definition makedirs (p : path) (exist_ok : bool) : M unit :=
  fun w =>
    if existsb (fun q => is_file (fs w !! q)) (removelast (ancestors_and_self p))
    then (inl NotADirectoryError, w)
    else
      match fs w !! p with
      | Some Dir => if exist_ok then (inr tt, w) else (inl FileExistsError, w)
      | Some _ => (inl FileExistsError, w)
      | None =>
          (inr tt,
           set_fs (fold_left (fun f q => <[q := Dir]> f)
                     (ancestors_and_self p) (fs w)) w)
      end.

Definition write_file (p : path) (n : Node) : M unit :=
  fun w => (inr tt, set_fs (<[p := n]> (fs w)) w).
End FileSystem.

(** ** Paths, pool and handle *)
Section Pool.
Context `{Collaborators}.

(** Modelled from the spec: [get_kb_path] of
    [chatchat.server.knowledge_base.utils], the layout
    [<kb_root>/<kb_name>/]. *)
Definition get_kb_path (kb : string) : path := kb_root ++ [kb].

(** Modelled from the spec: [get_vs_path] of
    [chatchat.server.knowledge_base.utils], the variant-specific
    subdirectory of the knowledge base that holds the index snapshots. *)
Definition get_vs_path (kb vn : string) : path :=
  get_kb_path kb ++ ["vector_store"; vn].

(** [x or y] for an optional string [x]: [None] and the empty string are
    falsy. *)
Definition py_or (x : option string) (y : string) : string :=
  match x with
  | Some s => if String.eqb s "" then y else s
  | None => y
  end.

(** [embed_model.replace(":", "_")] *)
Definition default_vector_name (embed_model : string) : string :=
  replace ":" "_" embed_model.

(** Modelled from the spec: the key under which the pool files the store
    of a knowledge base, the name of the knowledge base with the variant
    name, or with its default when the variant name is not set. *)
Definition pool_key (kb : string) (vn : option string) (embed_model : string)
  : Key :=
  (kb, Some (py_or vn (default_vector_name embed_model))).

(** Modelled from the spec: the on-disk path of a key, where its
    snapshot is kept. *)
Definition key_path (k : Key) : path :=
  get_vs_path (fst k) (default "" (snd k)).

(** Modelled from the spec: construction of the index of a key by the
    pool of [chatchat.server.knowledge_base.kb_cache.faiss_cache]:
    restored from the snapshot on disk when there is one, empty
    otherwise; a [ConstructionError] when the snapshot is unreadable or
    the embedding model is unusable. *)
Definition construct (k : Key) (embed_model : string) (w : World)
  : Exn + FAISS :=
  match get_Embeddings embed_model with
  | inl _ => inl ConstructionError
  | inr emb =>
      match fs w !! (key_path k ++ ["index.faiss"]) with
      | None => inr (empty_store emb)
      | Some (FaissFile vectors) =>
          match fs w !! (key_path k ++ ["index.pkl"]) with
          | Some (PklFile d ids) => inr (mkFAISS _ emb vectors d ids)
          | _ => inl ConstructionError
          end
      | Some _ => inl ConstructionError
      end
  end.

(** Modelled from the spec: [kb_faiss_pool.load_vector_store], the
    pool's [load]: the entry of the key when there is one, otherwise a
    construction whose result is installed under the pool lock; a failed
    construction installs nothing. *)
Definition pool_load (kb : string) (vn : option string) (embed_model : string)
  : M Key :=
  let k := pool_key kb vn embed_model in
  (emit EvPoolLock ;;
   fun w =>
     match pool w !! k with
     | Some _ => (emit EvPoolUnlock ;; ret k) w
     | None =>
         (emit EvPoolUnlock ;;
          vs <- (fun w' => lift (construct k embed_model w') w') ;;
          emit EvPoolLock ;;
          (fun w' => (inr tt, set_pool (<[k := vs]> (pool w')) w')) ;;
          emit EvPoolUnlock ;;
          ret k) w
     end)%py.

(** Modelled from the spec: [kb_faiss_pool.pop], the pool's [remove]:
    takes the entry of the key out of the registry and returns it, or
    nothing when there is none. *)
Definition pool_pop (k : Key) : M (option FAISS) :=
  (emit (EvPoolPop k) ;;
   fun w => (inr (pool w !! k), set_pool (delete k (pool w)) w))%py.

(** Modelled from the spec: [with kb_faiss_pool.atomic:], the pool
    lock, released on every exit. *)
Definition atomic {A : Type} (body : M A) : M A :=
  (emit EvPoolLock ;; finally body (log EvPoolUnlock))%py.

(** Modelled from the spec: [with handle.acquire() as vs:] of
    [ThreadSafeFaiss], the exclusive lease, released on every exit path
    of the body. *)
Definition acquire {A : Type} (k : Key) (body : M A) : M A :=
  (emit (EvAcquire k) ;; finally body (log (EvRelease k)))%py.

(** A method call on [vs], the store that the key names in the pool.
    Inside a lease the store is there; the other branch is never taken. *)
Definition vs_call {A : Type} (k : Key) (f : FAISS -> (Exn + A) * FAISS)
  : M A :=
  fun w =>
    match pool w !! k with
    | Some vs =>
        let '(r, vs') := f vs in (r, set_pool (<[k := vs']> (pool w)) w)
    | None => (inl KeyError, w)
    end.

(** [vs.embeddings.embed_documents(texts)] *)
Definition vs_embed_documents (k : Key) (texts : list string) : M (list Vec) :=
  (emit (EvEmbedDocuments texts) ;;
   vs_call k (fun vs => (embeddings vs texts, vs)))%py.

(** [vs.add_embeddings(text_embeddings=..., metadatas=...)] *)
Definition vs_add_embeddings (k : Key) (text_embeddings : list (string * Vec))
    (metadatas : list (gmap string string)) : M (list string) :=
  (emit (EvAddEmbeddings k) ;;
   fun w =>
     let n := length text_embeddings in
     let fresh := map uuid4 (seq (uuid_next w) n) in
     vs_call k (faiss_add_embeddings fresh text_embeddings metadatas)
       (set_uuid_next (uuid_next w + n) w))%py.

(** [vs.delete(ids)] *)
Definition vs_delete (k : Key) (ids : list string) : M bool :=
  (emit (EvDelete k ids) ;; vs_call k (faiss_delete ids))%py.

(** [vs.save_local(folder)]: the vectors go to [index.faiss], the
    docstore and the identifier table to [index.pkl]. *)
Definition vs_save_local (k : Key) (folder : path) : M unit :=
  (emit (EvSaveLocal folder) ;;
   makedirs folder true ;;
   vs <- vs_call k (fun vs => (inr vs, vs)) ;;
   write_file (folder ++ ["index.faiss"]) (FaissFile (index vs)) ;;
   write_file (folder ++ ["index.pkl"])
     (PklFile (docstore vs) (index_to_docstore_id vs)))%py.
End Pool.

(** ** The service *)

(** The fields of a [FaissKBService] object. *)
Record FaissKBService : Type := mkService {
  kb_name : string;
  embed_model : string;
  vector_name : option string;
  kb_path : path;
  vs_path : path
}.

(** One entry of the list that [do_add_doc] returns. *)
Record DocInfo : Type := mkDocInfo {
  id : string;
  info_metadata : gmap string string
}.


Section Service.
Context `{Collaborators} `{!Retrievers}.

(** [self.load_vector_store()] *)
Definition load_vector_store (svc : FaissKBService) : M Key :=
  pool_load (kb_name svc) (vector_name svc) (embed_model svc).

(** [with self.load_vector_store().acquire() as vs: body] *)
Definition with_vector_store {A : Type} (svc : FaissKBService)
    (body : Key -> M A) : M A :=
  (k <- load_vector_store svc ;; acquire k (body k))%py.

Definition get_doc_by_ids (svc : FaissKBService) (ids : list string)
  : M (list (option Document)) :=
  with_vector_store svc (fun k =>
    vs_call k (fun vs =>
      (inr (map (fun i => dict_get i (docstore vs)) ids), vs))).

Definition del_doc_by_ids (svc : FaissKBService) (ids : list string) : M unit :=
  with_vector_store svc (fun k => (vs_delete k ids ;; ret tt)%py).

Definition do_init (svc : FaissKBService) : FaissKBService :=
  let vn := py_or (vector_name svc) (default_vector_name (embed_model svc)) in
  mkService (kb_name svc) (embed_model svc) (Some vn)
    (get_kb_path (kb_name svc)) (get_vs_path (kb_name svc) vn).

Definition do_create_kb (svc : FaissKBService) : M unit :=
  ((fun w =>
      if negb (path_exists (vs_path svc) w)
      then makedirs (vs_path svc) false w
      else ret tt w) ;;
   load_vector_store svc ;;
   ret tt)%py.

Definition do_search (svc : FaissKBService) (query : string) (top_k : Z)
    (score_threshold : Score) : M (list Hit) :=
  with_vector_store svc (fun k =>
    (emit (EvRetrieve query) ;;
     vs_call k (fun vs =>
       (from_vectorstore vs top_k score_threshold query, vs)))%py).

Definition do_add_doc (svc : FaissKBService) (docs : list Document)
    (not_refresh_vs_cache : bool) : M (list DocInfo) :=
  let texts := map page_content docs in
  let metadatas := map metadata docs in
  (ids <- with_vector_store svc (fun k =>
     embeddings <- vs_embed_documents k texts ;;
     ids <- vs_add_embeddings k (combine texts embeddings) metadatas ;;
     (if negb not_refresh_vs_cache
      then vs_save_local k (vs_path svc) else ret tt) ;;
     ret ids) ;;
   ret (map (fun p => mkDocInfo (fst p) (metadata (snd p)))
          (combine ids docs)))%py.

(** The comprehension of [do_delete_doc]: the keys of the documents
    whose [source], lowered, is the file name, lowered.  On a document
    without [source], [.get] gives [None] and [.lower()] raises. *)
Fixpoint matching_ids (d : list (string * Document)) (file_name : string)
  : Exn + list string :=
  match d with
  | [] => inr []
  | (k, v) :: d' =>
      match metadata v !! "source" with
      | None => inl AttributeError
      | Some src =>
          match matching_ids d' file_name with
          | inl e => inl e
          | inr ids =>
              inr (if String.eqb (lower src) (lower file_name)
                   then k :: ids else ids)
          end
      end
  end.

Definition do_delete_doc (svc : FaissKBService) (kb_file : KnowledgeFile)
    (not_refresh_vs_cache : bool) : M (list string) :=
  with_vector_store svc (fun k =>
    (ids <- vs_call k (fun vs =>
              (matching_ids (docstore vs) (filename kb_file), vs)) ;;
     (if (0 <? length ids)%nat
      then (vs_delete k ids ;; ret tt) else ret tt) ;;
     (if negb not_refresh_vs_cache
      then vs_save_local k (vs_path svc) else ret tt) ;;
     ret ids)%py).

Definition do_clear_vs (svc : FaissKBService) : M unit :=
  (atomic (pool_pop (kb_name svc, vector_name svc)) ;;
   try_pass (rmtree (vs_path svc)) ;;
   makedirs (vs_path svc) true)%py.




End Service.

(** ** Saving on request *)
Section Saving.
Context `{Collaborators}.

(** Modelled from the spec: [ThreadSafeFaiss.save], the [save] of the
    handle: serialises the store as it is in memory to the path, also when
    called on its own. *)
Definition handle_save (k : Key) (p : path) : M unit := vs_save_local k p.

(** [self.load_vector_store().save(self.vs_path)] *)
Definition save_vector_store (svc : FaissKBService) : M unit :=
  (k <- pool_load (kb_name svc) (vector_name svc) (embed_model svc) ;;
   handle_save k (vs_path svc))%py.
End Saving.

(** ** Vocabulary of the properties *)
Section Vocabulary.
Context `{Collaborators}.

(** The world with more events at the end of its trace. *)
Definition add_trace (t : list Event) (w : World) : World :=
  mkWorld _ (pool w) (fs w) (rm_denied w) (catalog w) (uuid_next w)
    (trace w ++ t).

(** The index of a key as a caller that loads it finds it: the pooled
    store, or the one that the pool would construct from the disk. *)
Definition index_of (k : Key) (embed_model : string) (w : World)
  : Exn + FAISS :=
  match pool w !! k with
  | Some vs => inr vs
  | None => construct k embed_model w
  end.

(** The key that the service loads. *)
Definition svc_key (svc : FaissKBService) : Key :=
  pool_key (kb_name svc) (vector_name svc) (embed_model svc).

(** The events of a load: a hit, or a miss with its construction. *)
Definition load_events (k : Key) (w : World) : list Event :=
  match pool w !! k with
  | Some _ => [EvPoolLock; EvPoolUnlock]
  | None => [EvPoolLock; EvPoolUnlock; EvPoolLock; EvPoolUnlock]
  end.

(** The world in which the body of a lease starts. *)
Definition leased (k : Key) (vs : FAISS) (w : World) : World :=
  add_trace (load_events k w ++ [EvAcquire k])
    (set_pool (<[k := vs]> (pool w)) w).

(** The invariant of a store that [FAISS] keeps: the docstore holds the
    identifiers of the index, once each and in its order, and one vector
    for each. *)
Definition store_wf (vs : FAISS) : Prop :=
  NoDup (index_to_docstore_id vs)
  /\ dict_keys (docstore vs) = index_to_docstore_id vs
  /\ length (index vs) = length (index_to_docstore_id vs).




(** No ancestor of the path, and not the path itself, is a file: the
    directory can be made, or is there. *)
Definition can_makedirs (p : path) (w : World) : bool :=
  negb (existsb (fun q => is_file (fs w !! q)) (ancestors_and_self p))
  && negb (is_file (fs w !! p)).

Definition is_embedding (e : Event) : bool :=
  match e with EvEmbedDocuments _ => true | _ => false end.

(** Every embedding of the trace is computed before its first lease is
    acquired. *)
Fixpoint embeds_before_lease (t : list Event) : bool :=
  match t with
  | [] => true
  | EvAcquire _ :: t' => negb (existsb is_embedding t')
  | _ :: t' => embeds_before_lease t'
  end.

(** What [do_add_doc] does between the embedding and the release: the
    insertion when the embedding succeeds, and the save when the
    insertion succeeds and the caller has not opted out. *)
Definition add_doc_tail (svc : FaissKBService) (docs : list Document)
    (not_refresh_vs_cache : bool) (vs : FAISS) (w : World) : list Event :=
  let texts := map page_content docs in
  match embeddings vs texts with
  | inl _ => []
  | inr embs =>
      let te := combine texts embs in
      let fresh := map uuid4 (seq (uuid_next w) (length te)) in
      EvAddEmbeddings (svc_key svc)
      :: match fst (faiss_add_embeddings fresh te (map metadata docs) vs) with
         | inl _ => []
         | inr _ =>
             if not_refresh_vs_cache then [] else [EvSaveLocal (vs_path svc)]
         end
  end.



Definition is_mutation (e : Event) : bool :=
  match e with
  | EvAddEmbeddings _ | EvDelete _ _ | EvSaveLocal _ | EvPoolPop _ => true
  | _ => false
  end.

(** The snapshot in the folder is the store as given: its vectors in
    [index.faiss], its docstore and identifier table in [index.pkl]. *)
Definition snapshot_of (p : path) (vs : FAISS) (w : World) : Prop :=
  fs w !! (p ++ ["index.faiss"]) = Some (FaissFile (index vs))
  /\ fs w !! (p ++ ["index.pkl"])
     = Some (PklFile (docstore vs) (index_to_docstore_id vs)).

(** The identifiers that [uuid4] hands out next. *)
Definition fresh_ids (n : nat) (w : World) : list string :=
  map uuid4 (seq (uuid_next w) n).

(** The store after a batch went in under the given identifiers. *)
Definition extended (vs : FAISS) (ids : list string) (docs : list Document)
    (embs : list Vec) : FAISS :=
  mkFAISS _ (embeddings vs) (index vs ++ embs)
    (docstore vs ++ combine ids docs) (index_to_docstore_id vs ++ ids).

(** The list that [do_add_doc] returns for a batch and its identifiers. *)
Definition doc_infos (ids : list string) (docs : list Document)
  : list DocInfo :=
  map (fun p => mkDocInfo (fst p) (metadata (snd p))) (combine ids docs).
End Vocabulary.

(** The identifier with every character that is not alphanumeric replaced:
    the normal form that the specification words, to compare with
    [default_vector_name]. *)
Fixpoint normalized (new : ascii) (s : string) : string :=
  match s with
  | EmptyString => EmptyString
  | String c s' => String (if isalnum c then c else new) (normalized new s')
  end.

(** ** A small instance, to run the service on *)
Module Demo.
(** An embedding model that fails on an empty text. *)
Definition embed (texts : list string) : Exn + list nat :=
  if existsb (String.eqb "") texts then inl EmbeddingError
  else inr (map String.length texts).

Fixpoint tally (n : nat) : string :=
  match n with O => "" | S n' => String "i" (tally n') end.

Definition collab : Collaborators :=
  {| Vec := nat;
     kb_root := ["kb"];
     uuid4 := fun n => String "u" (tally n);
     get_Embeddings := fun _ => inr embed |}.

Definition retr : @Retrievers collab :=
  {| Hit := Document;
     Score := Z;
     from_vectorstore := fun vs top_k _ _ =>
       inr (firstn (Z.to_nat top_k) (map snd (@docstore collab vs))) |}.

Definition svc : FaissKBService :=
  @do_init collab (mkService "samples" "bge:m3" None [] []).

Definition doc (text source : string) : Document :=
  mkDocument text {[ "source" := source ]}.


Definition store (d : list (string * Document)) : @FAISS collab :=
  @mkFAISS collab embed (map (fun kv => String.length (page_content (snd kv))) d)
    d (map fst d).

Definition world (p : gmap Key (@FAISS collab)) (f : gmap path (@Node collab))
    (denied : gset path) : @World collab :=
  @mkWorld collab p f denied ∅ 0 [].

(** Two documents of [a.txt], in different case, and one of [b.txt]. *)
Definition three : list (string * Document) :=
  [("x", doc "hello world" "a.txt"); ("y", doc "bye" "b.txt");
   ("z", doc "hello again" "A.TXT")].

Definition key : Key := ("samples", Some "bge_m3").

Definition w_three : @World collab :=
  world {[ key := store three ]} ∅ ∅.





(** A batch of three documents whose second one cannot be embedded. *)
Definition batch : list Document :=
  [doc "one" "a.txt"; doc "" "a.txt"; doc "three" "a.txt"].

(** A regular file where the root directory of the knowledge bases
    should be. *)
Definition w_blocked : @World collab :=
  world ∅ {[ ["kb"] := @RawFile collab ]} ∅.


(** Nothing in the pool, nothing on disk. *)
Definition w_empty : @World collab := world ∅ ∅ ∅.

(** A service before its initialisation. *)
Definition svc0 : FaissKBService := mkService "samples" "bge:m3" None [] [].

(** A batch of two documents of [c.txt]. *)
Definition pair : list Document := [doc "one" "c.txt"; doc "two" "C.txt"].
End Demo.

(** * Properties *)

(** ** Worlds, traces and the load *)
Section LoadLemmas.
Context `{Collaborators}.

Lemma add_trace_nil (w : World) : add_trace [] w = w.
Proof. destruct w; unfold add_trace; simpl. by rewrite app_nil_r. Qed.

Lemma add_trace_app (t1 t2 : list Event) (w : World) :
  add_trace t2 (add_trace t1 w) = add_trace (t1 ++ t2) w.
Proof. unfold add_trace; simpl. by rewrite app_assoc. Qed.

Lemma log_add_trace (e : Event) (w : World) : log e w = add_trace [e] w.
Proof. reflexivity. Qed.

Lemma set_pool_id (w : World) : set_pool (pool w) w = w.
Proof. by destruct w. Qed.

Lemma set_pool_insert_id (k : Key) (vs : FAISS) (w : World) :
  pool w !! k = Some vs -> set_pool (<[k := vs]> (pool w)) w = w.
Proof. intros Hk. rewrite insert_id by done. apply set_pool_id. Qed.

Lemma index_of_add_trace (k : Key) (em : string) (t : list Event) (w : World) :
  index_of k em (add_trace t w) = index_of k em w.
Proof. reflexivity. Qed.

(** A load that finds or constructs the index installs it and returns
    the key. *)
Lemma pool_load_ok (kb : string) (vn : option string) (em : string)
    (w : World) (vs : FAISS) :
  let k := pool_key kb vn em in
  index_of k em w = inr vs ->
  pool_load kb vn em w
  = (inr k, add_trace (load_events k w) (set_pool (<[k := vs]> (pool w)) w)).
Proof.
  intros k Hix. unfold pool_load, index_of, load_events in *.
  fold k. unfold bind at 1, emit at 1. cbn [pool log].
  destruct (pool w !! k) as [vs0|] eqn:Hk.
  - inversion Hix; subst vs0.
    rewrite insert_id by done.
    unfold bind, emit, ret, add_trace, set_pool, log; cbn.
    by rewrite <- !app_assoc.
  - unfold bind, emit, lift, ret. cbn [pool log fs].
    change (construct k em (log EvPoolUnlock (log EvPoolLock w)))
      with (construct k em w).
    rewrite Hix. unfold add_trace, set_pool, log; cbn.
    by rewrite <- !app_assoc.
Qed.

(** A load whose construction fails installs nothing. *)
Lemma pool_load_fail (kb : string) (vn : option string) (em : string)
    (w : World) (e : Exn) :
  let k := pool_key kb vn em in
  index_of k em w = inl e ->
  pool_load kb vn em w = (inl e, add_trace [EvPoolLock; EvPoolUnlock] w).
Proof.
  intros k Hix. unfold pool_load, index_of in *.
  fold k. unfold bind at 1, emit at 1. cbn [pool log].
  destruct (pool w !! k) as [vs0|] eqn:Hk; [done|].
  unfold bind, emit, lift, ret.
  change (construct k em (log EvPoolUnlock (log EvPoolLock w)))
    with (construct k em w).
  rewrite Hix. unfold add_trace, log; cbn.
  by rewrite <- !app_assoc.
Qed.

(** After a load the index of the key is the one the load found. *)
Lemma index_of_loaded (k : Key) (em : string) (vs : FAISS) (w : World) :
  index_of k em (set_pool (<[k := vs]> (pool w)) w) = inr vs.
Proof. unfold index_of; cbn [pool set_pool]. by rewrite lookup_insert_eq. Qed.
End LoadLemmas.

Section LeaseLemmas.
Context `{Collaborators}.

Lemma pool_leased (k : Key) (vs : FAISS) (w : World) :
  pool (leased k vs w) !! k = Some vs.
Proof. cbn. apply lookup_insert_eq. Qed.

Lemma with_vector_store_ok {A : Type} (svc : FaissKBService)
    (body : Key -> M A) (w : World) (vs : FAISS) :
  let k := svc_key svc in
  index_of k (embed_model svc) w = inr vs ->
  with_vector_store svc body w
  = (fst (body k (leased k vs w)),
     add_trace [EvRelease k] (snd (body k (leased k vs w)))).
Proof.
  intros k Hix. unfold with_vector_store, load_vector_store.
  unfold bind at 1. rewrite (pool_load_ok _ _ _ _ vs) by exact Hix.
  fold (svc_key svc). fold k.
  unfold acquire, bind, emit, finally.
  rewrite log_add_trace, add_trace_app. fold (leased k vs w).
  by destruct (body k (leased k vs w)) as [r w1].
Qed.

Lemma with_vector_store_fail {A : Type} (svc : FaissKBService)
    (body : Key -> M A) (w : World) (e : Exn) :
  index_of (svc_key svc) (embed_model svc) w = inl e ->
  with_vector_store svc body w
  = (inl e, add_trace [EvPoolLock; EvPoolUnlock] w).
Proof.
  intros Hix. unfold with_vector_store, load_vector_store.
  unfold bind at 1. by rewrite (pool_load_fail _ _ _ _ e) by exact Hix.
Qed.

Lemma bind_emit {A : Type} (e : Event) (m : M A) (w : World) :
  (emit e ;; m)%py w = m (add_trace [e] w).
Proof. reflexivity. Qed.

Lemma vs_call_at {A : Type} (k : Key) (f : FAISS -> (Exn + A) * FAISS)
    (w : World) (vs : FAISS) :
  pool w !! k = Some vs ->
  vs_call k f w = (fst (f vs), set_pool (<[k := snd (f vs)]> (pool w)) w).
Proof. intros Hk. unfold vs_call. rewrite Hk. by destruct (f vs). Qed.

Lemma vs_call_none {A : Type} (k : Key) (f : FAISS -> (Exn + A) * FAISS)
    (w : World) :
  pool w !! k = None -> vs_call k f w = (inl KeyError, w).
Proof. intros Hk. unfold vs_call. by rewrite Hk. Qed.

(** A call that only reads the store leaves the world as it is. *)
Lemma vs_call_read {A : Type} (k : Key) (g : FAISS -> Exn + A)
    (w : World) (vs : FAISS) :
  pool w !! k = Some vs ->
  vs_call k (fun vs => (g vs, vs)) w = (g vs, w).
Proof.
  intros Hk. rewrite (vs_call_at _ _ _ vs) by done. cbn [fst snd].
  by rewrite set_pool_insert_id.
Qed.
End LeaseLemmas.

(** ** Insertion-ordered dictionaries *)
Section DictLemmas.
Context {V : Type}.

Lemma dict_get_None (k : string) (d : list (string * V)) :
  dict_get k d = None <-> ~ In k (dict_keys d).
Proof.
  induction d as [|[k' v] d IH]; cbn; [tauto|].
  destruct (String.eqb_spec k k') as [->|Hne]; split.
  - discriminate.
  - intros Hn. exfalso. apply Hn. by left.
  - intros Hg [Heq|Hin]; [congruence|]. by apply IH.
  - intros Hn. apply IH. intros Hin. apply Hn. by right.
Qed.

Lemma dict_get_Some (k : string) (v : V) (d : list (string * V)) :
  dict_get k d = Some v -> In (k, v) d.
Proof.
  induction d as [|[k' v'] d IH]; cbn; [discriminate|].
  destruct (String.eqb_spec k k') as [->|Hne].
  - intros [= ->]. by left.
  - intros Hg. right. by apply IH.
Qed.

Lemma dict_mem_In (k : string) (d : list (string * V)) :
  dict_mem k d = true <-> In k (dict_keys d).
Proof.
  unfold dict_mem. rewrite existsb_exists. split.
  - intros [x [Hin Heq]]. apply String.eqb_eq in Heq. by subst.
  - intros Hin. exists k. split; [done|]. apply String.eqb_refl.
Qed.
End DictLemmas.

(** ** Reading the store *)
Section Reads.
Context `{Collaborators} `{!Retrievers}.

(** C9: [get_doc_by_ids] returns one entry for each given identifier, in
    the order given: the stored document where the docstore has the
    identifier and [None] where it has not; an unknown identifier is no
    failure. *)
Theorem get_doc_by_ids_positions (svc : FaissKBService) (ids : list string)
    (w : World) (vs : FAISS) :
  index_of (svc_key svc) (embed_model svc) w = inr vs ->
  exists docs,
    fst (get_doc_by_ids svc ids w) = inr docs
    /\ length docs = length ids
    /\ (forall n i, nth_error ids n = Some i ->
          nth_error docs n = Some (dict_get i (docstore vs))
          /\ (dict_get i (docstore vs) = None
              <-> ~ In i (dict_keys (docstore vs)))
          /\ (forall d, dict_get i (docstore vs) = Some d ->
                In (i, d) (docstore vs)))
    /\ index_of (svc_key svc) (embed_model svc)
         (snd (get_doc_by_ids svc ids w)) = inr vs
    /\ fs (snd (get_doc_by_ids svc ids w)) = fs w.
Proof.
  intros Hix. unfold get_doc_by_ids.
  rewrite (with_vector_store_ok _ _ _ vs) by exact Hix.
  rewrite (vs_call_read _ _ _ vs) by apply pool_leased.
  cbn [fst snd].
  exists (map (fun i => dict_get i (docstore vs)) ids).
  split; [done|]. split; [apply length_map|]. split.
  - intros n i Hn. split; [|split].
    + by rewrite nth_error_map, Hn.
    + apply dict_get_None.
    + intros d. apply dict_get_Some.
  - split; [|done].
    rewrite index_of_add_trace. unfold leased.
    rewrite index_of_add_trace. apply index_of_loaded.
Qed.

(** What a search does when the index is there. *)
Lemma do_search_run (svc : FaissKBService) (query : string) (top_k : Z)
    (score_threshold : Score) (w : World) (vs : FAISS) :
  let k := svc_key svc in
  index_of k (embed_model svc) w = inr vs ->
  do_search svc query top_k score_threshold w
  = (from_vectorstore vs top_k score_threshold query,
     add_trace
       (load_events k w ++ [EvAcquire k; EvRetrieve query; EvRelease k])
       (set_pool (<[k := vs]> (pool w)) w)).
Proof.
  intros k Hix. unfold do_search.
  rewrite (with_vector_store_ok _ _ _ vs) by exact Hix. fold k.
  rewrite bind_emit.
  rewrite (vs_call_read _ _ _ vs) by apply pool_leased.
  cbn [fst snd]. unfold leased. rewrite !add_trace_app.
  by rewrite <- !app_assoc.
Qed.

(** C8: [do_search] leaves the disk as it is and the index of every key
    as it is: between acquiring and releasing the handle it only
    retrieves, and nothing that it does mutates or persists. *)
Theorem do_search_read_only (svc : FaissKBService) (query : string)
    (top_k : Z) (score_threshold : Score) (w : World) :
  let k := svc_key svc in
  let w' := snd (do_search svc query top_k score_threshold w) in
  fs w' = fs w
  /\ index_of k (embed_model svc) w' = index_of k (embed_model svc) w
  /\ (forall k', k' <> k -> pool w' !! k' = pool w !! k')
  /\ (exists t, trace w' = trace w ++ t
                /\ forallb (fun e => negb (is_mutation e)) t = true
                /\ (forall vs, index_of k (embed_model svc) w = inr vs ->
                      t = load_events k w
                          ++ [EvAcquire k; EvRetrieve query; EvRelease k])).
Proof.
  intros k w'. subst w'.
  destruct (index_of k (embed_model svc) w) as [e|vs] eqn:Hix.
  - unfold do_search.
    rewrite (with_vector_store_fail _ _ _ e) by exact Hix.
    cbn [snd]. rewrite index_of_add_trace.
    split; [done|]. split; [done|]. split; [done|].
    exists [EvPoolLock; EvPoolUnlock]. split; [done|]. split; [done|].
    intros vs [=].
  - rewrite (do_search_run _ _ _ _ _ vs) by exact Hix. fold k.
    cbn [snd]. rewrite index_of_add_trace, index_of_loaded.
    split; [done|]. split; [done|]. split.
    + intros k' Hne. cbn. by rewrite lookup_insert_ne.
    + exists (load_events k w ++ [EvAcquire k; EvRetrieve query; EvRelease k]).
      split; [done|]. split; [|done].
      rewrite forallb_app. cbn. rewrite andb_true_r.
      unfold load_events. by destruct (pool w !! k).
Qed.
End Reads.

(** ** Saving the store *)
Section SaveLemmas.
Context `{Collaborators}.

Lemma bind_run {A B : Type} (m : M A) (k : A -> M B) (w : World) :
  bind m k w
  = match fst (m w) with
    | inl e => (inl e, snd (m w))
    | inr a => k a (snd (m w))
    end.
Proof. unfold bind. by destruct (m w) as [[e|a] w1]. Qed.

Lemma makedirs_frame (p : path) (ok : bool) (w : World) :
  pool (snd (makedirs p ok w)) = pool w
  /\ trace (snd (makedirs p ok w)) = trace w
  /\ rm_denied (snd (makedirs p ok w)) = rm_denied w.
Proof.
  unfold makedirs.
  destruct (existsb _ _); [done|].
  destruct (fs w !! p) as [[]|]; try done. by destruct ok.
Qed.

(** Saving changes the disk only: the pool is as before, and the trace
    has the one event of the save, whatever its outcome. *)
Lemma vs_save_local_frame (k : Key) (p : path) (w : World) :
  pool (snd (vs_save_local k p w)) = pool w
  /\ trace (snd (vs_save_local k p w)) = trace w ++ [EvSaveLocal p].
Proof.
  unfold vs_save_local. rewrite bind_emit, bind_run.
  destruct (makedirs_frame p true (add_trace [EvSaveLocal p] w))
    as (Hp & Ht & _).
  destruct (fst (makedirs p true (add_trace [EvSaveLocal p] w))) as [e|[]].
  { cbn [snd]. by rewrite Hp, Ht. }
  rewrite bind_run.
  set (w1 := snd (makedirs p true (add_trace [EvSaveLocal p] w))) in *.
  destruct (pool w1 !! k) as [vs|] eqn:Hk.
  - rewrite (vs_call_read _ _ _ vs) by done. cbn. by rewrite Hp, Ht.
  - rewrite vs_call_none by done. cbn [fst snd]. by rewrite Hp, Ht.
Qed.
End SaveLemmas.

(** ** Adding documents *)
Section Adding.
Context `{Collaborators} `{!Retrievers}.

(** The run of the lease of [do_add_doc] up to the embedding. *)
Lemma vs_embed_documents_run (k : Key) (texts : list string) (w : World)
    (vs : FAISS) :
  pool w !! k = Some vs ->
  vs_embed_documents k texts w
  = (embeddings vs texts, add_trace [EvEmbedDocuments texts] w).
Proof.
  intros Hk. unfold vs_embed_documents. rewrite bind_emit.
  by rewrite (vs_call_read _ _ _ vs).
Qed.

(** C1: when the embedding of the batch fails, [do_add_doc] fails with
    that error before it has touched the index: the index of the key and
    the disk are as they were, and no insertion or save was started. *)
Theorem do_add_doc_embedding_failure (svc : FaissKBService)
    (docs : list Document) (not_refresh_vs_cache : bool) (w : World)
    (vs : FAISS) (e : Exn) :
  let k := svc_key svc in
  let out := do_add_doc svc docs not_refresh_vs_cache w in
  index_of k (embed_model svc) w = inr vs ->
  embeddings vs (map page_content docs) = inl e ->
  fst out = inl e
  /\ index_of k (embed_model svc) (snd out) = inr vs
  /\ (forall k', k' <> k -> pool (snd out) !! k' = pool w !! k')
  /\ fs (snd out) = fs w
  /\ trace (snd out)
     = trace w ++ load_events k w
       ++ [EvAcquire k; EvEmbedDocuments (map page_content docs); EvRelease k].
Proof.
  intros k out Hix Hemb. subst out. unfold do_add_doc.
  rewrite bind_run.
  rewrite (with_vector_store_ok _ _ _ vs) by exact Hix. fold k.
  rewrite bind_run.
  rewrite (vs_embed_documents_run _ _ _ vs) by apply pool_leased.
  cbn [fst snd]. rewrite Hemb. cbn [fst snd].
  unfold leased. rewrite !add_trace_app, index_of_add_trace, index_of_loaded.
  split; [done|]. split; [done|]. split.
  { intros k' Hne. cbn. by rewrite lookup_insert_ne. }
  split; [done|]. cbn. by rewrite <- !app_assoc.
Qed.
Lemma vs_add_embeddings_run (k : Key) (te : list (string * Vec))
    (metadatas : list (gmap string string)) (w : World) (vs : FAISS) :
  pool w !! k = Some vs ->
  let fresh := map uuid4 (seq (uuid_next w) (length te)) in
  let r := faiss_add_embeddings fresh te metadatas vs in
  vs_add_embeddings k te metadatas w
  = (fst r,
     set_pool (<[k := snd r]> (pool w))
       (set_uuid_next (uuid_next w + length te)
          (add_trace [EvAddEmbeddings k] w))).
Proof.
  intros Hk fresh r. unfold vs_add_embeddings. rewrite bind_emit.
  cbn [uuid_next add_trace].
  by rewrite (vs_call_at _ _ _ vs) by exact Hk.
Qed.

(** C4, as the code has it: [do_add_doc] acquires the lease first and
    computes the embeddings of the whole batch inside it; the insertion
    and the conditional save follow inside the same lease, and the
    release comes last. *)
Theorem do_add_doc_lease_order (svc : FaissKBService) (docs : list Document)
    (not_refresh_vs_cache : bool) (w : World) (vs : FAISS) :
  let k := svc_key svc in
  index_of k (embed_model svc) w = inr vs ->
  trace (snd (do_add_doc svc docs not_refresh_vs_cache w))
  = trace w ++ load_events k w
    ++ [EvAcquire k; EvEmbedDocuments (map page_content docs)]
    ++ add_doc_tail svc docs not_refresh_vs_cache vs w
    ++ [EvRelease k].
Proof.
  intros k Hix. unfold do_add_doc, add_doc_tail.
  rewrite bind_run.
  rewrite (with_vector_store_ok _ _ _ vs) by exact Hix. fold k.
  rewrite bind_run.
  rewrite (vs_embed_documents_run _ _ _ vs) by apply pool_leased.
  cbn [fst snd].
  destruct (embeddings vs (map page_content docs)) as [e|embs].
  { cbn. by rewrite <- !app_assoc. }
  rewrite bind_run.
  rewrite (vs_add_embeddings_run _ _ _ _ vs) by apply pool_leased.
  cbn [fst snd uuid_next add_trace leased set_pool].
  set (r := faiss_add_embeddings _ _ _ vs).
  destruct (fst r) as [e|ids].
  { cbn. by rewrite <- !app_assoc. }
  rewrite bind_run.
  destruct not_refresh_vs_cache; cbn [negb].
  { cbn. by rewrite <- !app_assoc. }
  match goal with
  | |- context [vs_save_local ?k0 ?p ?w0] =>
      destruct (vs_save_local_frame k0 p w0) as [_ Ht];
      destruct (vs_save_local k0 p w0) as [[e|[]] w1]
  end; cbn [fst snd] in *.
  - cbn. rewrite Ht. cbn. by rewrite <- !app_assoc.
  - cbn. rewrite Ht. cbn. by rewrite <- !app_assoc.
Qed.
End Adding.

(** ** Deleting from the store *)
Section StoreDelete.
Context `{Collaborators}.

Lemma existsb_false {A : Type} (f : A -> bool) (l : list A) :
  existsb f l = false <-> (forall x, In x l -> f x = false).
Proof.
  induction l as [|a l IH]; cbn; [by split|].
  rewrite orb_false_iff, IH. split.
  - intros [Ha Hl] x [<-|Hx]; auto.
  - intros Hall. split; [apply Hall; by left|].
    intros x Hx. apply Hall. by right.
Qed.

Lemma mem_string_In (x : string) (l : list string) :
  mem_string x l = true <-> In x l.
Proof.
  unfold mem_string. rewrite existsb_exists. split.
  - intros [y [Hin Heq]]. apply String.eqb_eq in Heq. by subst.
  - intros Hin. exists x. split; [done|]. apply String.eqb_refl.
Qed.

Lemma mem_string_false (x : string) (l : list string) :
  mem_string x l = false <-> ~ In x l.
Proof.
  rewrite <- mem_string_In. by destruct (mem_string x l).
Qed.

Lemma filter_keys_In (i : string) (p : string -> bool)
    (d : list (string * Document)) :
  In i (dict_keys (List.filter (fun kv => p (fst kv)) d))
  <-> In i (dict_keys d) /\ p i = true.
Proof.
  unfold dict_keys. rewrite !in_map_iff. split.
  - intros [[k v] [<- Hin]]. apply filter_In in Hin as [Hin Hp].
    split; [|done]. by exists (k, v).
  - intros [[[k v] [<- Hin]] Hp]. exists (k, v). split; [done|].
    by apply filter_In.
Qed.

(** Popping distinct stored identifiers one by one removes their entries
    and no others. *)
Lemma pop_all_ok (ids : list string) (d : list (string * Document)) :
  NoDup ids ->
  (forall i, In i ids -> In i (dict_keys d)) ->
  pop_all ids d
  = (inr tt, List.filter (fun kv => negb (mem_string (fst kv) ids)) d).
Proof.
  revert d. induction ids as [|i ids IH]; intros d Hnd Hin.
  - cbn. f_equal. symmetry. clear.
    induction d as [|kv d IHd]; [done|]. cbn. by rewrite IHd.
  - cbn [pop_all]. unfold dict_pop.
    assert (dict_mem i d = true) as ->.
    { apply dict_mem_In, Hin. by left. }
    apply NoDup_cons in Hnd as [Hni Hnd].
    rewrite list_elem_of_In in Hni.
    rewrite IH; [|done|].
    + f_equal. clear. induction d as [|kv d IHd]; [done|].
      cbn [List.filter].
      change (mem_string (fst kv) (i :: ids))
        with (String.eqb (fst kv) i || mem_string (fst kv) ids).
      rewrite (String.eqb_sym (fst kv) i).
      destruct (String.eqb i (fst kv)); cbn [negb orb List.filter];
        [apply IHd|].
      destruct (mem_string (fst kv) ids); cbn [negb]; by rewrite IHd.
    + intros j Hj.
      apply (filter_keys_In j (fun k => negb (String.eqb i k))).
      split; [apply Hin; by right|].
      apply negb_true_iff, String.eqb_neq. intros ->. done.
Qed.

(** [FAISS.delete] of distinct identifiers, at least one, that the index
    and the docstore both hold: the docstore loses exactly their
    entries. *)
Lemma faiss_delete_ok (ids : list string) (vs : FAISS) :
  ids <> [] ->
  NoDup ids ->
  (forall i, In i ids -> In i (index_to_docstore_id vs)) ->
  (forall i, In i ids -> In i (dict_keys (docstore vs))) ->
  fst (faiss_delete ids vs) = inr true
  /\ docstore (snd (faiss_delete ids vs))
     = List.filter (fun kv => negb (mem_string (fst kv) ids)) (docstore vs)
  /\ embeddings (snd (faiss_delete ids vs)) = embeddings vs.
Proof.
  intros Hne Hnd Hix Hds. unfold faiss_delete.
  assert (existsb (fun i => negb (mem_string i (index_to_docstore_id vs))) ids
          = false) as ->.
  { apply existsb_false. intros i Hi. apply negb_false_iff, mem_string_In. auto. }
  unfold docstore_delete. cbn [docstore set_index].
  assert (existsb (fun i => dict_mem i (docstore vs)) ids = true) as ->.
  { destruct ids as [|i ids]; [done|]. cbn.
    assert (dict_mem i (docstore vs) = true) as ->; [|done].
    apply dict_mem_In, Hds. by left. }
  cbn [negb]. rewrite pop_all_ok by done. by cbn.
Qed.

(** [FAISS.delete] with an identifier that the index does not hold
    raises and changes nothing. *)
Lemma faiss_delete_missing (ids : list string) (vs : FAISS) (i : string) :
  In i ids -> ~ In i (index_to_docstore_id vs) ->
  faiss_delete ids vs = (inl ValueError, vs).
Proof.
  intros Hi Hni. unfold faiss_delete.
  assert (existsb (fun i => negb (mem_string i (index_to_docstore_id vs))) ids
          = true) as ->; [|done].
  apply existsb_exists. exists i. split; [done|].
  by apply negb_true_iff, mem_string_false.
Qed.
End StoreDelete.

(** ** Positions and identifiers *)
Section Positions.
Context {V : Type}.

Lemma dict_set_fresh (k : string) (v : V) (d : list (string * V)) :
  ~ In k (dict_keys d) -> dict_set k v d = d ++ [(k, v)].
Proof.
  induction d as [|[k' v'] d IH]; [done|]. cbn. intros Hni.
  destruct (String.eqb_spec k k') as [->|Hne].
  - exfalso. apply Hni. by left.
  - rewrite IH; [done|]. intros Hin. apply Hni. by right.
Qed.

Lemma dict_update_fresh (d new : list (string * V)) :
  NoDup (dict_keys new) ->
  (forall k, In k (dict_keys new) -> ~ In k (dict_keys d)) ->
  dict_update d new = d ++ new.
Proof.
  unfold dict_update. revert d.
  induction new as [|[k v] new IH]; intros d Hnd Hdis.
  - cbn. by rewrite app_nil_r.
  - cbn in Hnd. apply NoDup_cons in Hnd as [Hni Hnd].
    rewrite list_elem_of_In in Hni.
    cbn [fold_left fst snd]. rewrite dict_set_fresh by (apply Hdis; by left).
    rewrite IH; [by rewrite <- app_assoc|done|].
    intros k' Hk'. unfold dict_keys. rewrite map_app, in_app_iff.
    intros [Hin|[<-|[]]]; [|done].
    apply (Hdis k'); [by right|done].
Qed.

Lemma combine_snd_In {A : Type} (ns : list A) (l : list V) (x : V) :
  length ns = length l -> In x l -> exists n, In (n, x) (combine ns l).
Proof.
  revert ns. induction l as [|y l IH]; intros [|n ns] Hlen; try done.
  cbn in Hlen. intros [->|Hx].
  - exists n. by left.
  - destruct (IH ns) as [m Hm]; [lia|done|]. exists m. by right.
Qed.

Lemma combine_fst_functional {A : Type} (ns : list A) (l : list V)
    (n : A) (x y : V) :
  NoDup ns -> In (n, x) (combine ns l) -> In (n, y) (combine ns l) -> x = y.
Proof.
  revert l. induction ns as [|m ns IH]; intros [|z l]; try done.
  intros Hnd. apply NoDup_cons in Hnd as [Hni Hnd].
  rewrite list_elem_of_In in Hni. cbn.
  intros [[= -> ->]|Hx] [[= <-]|Hy]; try done.
  - exfalso. apply Hni. by apply in_combine_l in Hy.
  - subst. exfalso. apply Hni. by apply in_combine_l in Hx.
  - by apply (IH l).
Qed.

(** Where a list is filtered by position, and a position is kept
    exactly when its entry passes a test, the entries that pass are
    left. *)
Lemma map_snd_filter_combine {A : Type} (ns : list A) (l : list V)
    (P : A * V -> bool) (Q : V -> bool) :
  length ns = length l ->
  (forall p, In p (combine ns l) -> P p = Q (snd p)) ->
  map snd (List.filter P (combine ns l)) = List.filter Q l.
Proof.
  revert ns. induction l as [|x l IH]; intros [|n ns] Hlen Hag; try done.
  cbn in *. rewrite (Hag (n, x)) by (by left). cbn [snd].
  rewrite <- (IH ns) by (try lia; intros p Hp; apply Hag; by right).
  by destruct (Q x).
Qed.
End Positions.

Section PositionsOfIds.
Lemma dict_get_swap_combine (ns : list nat) (l : list string)
    (n : nat) (x : string) :
  NoDup l -> In (n, x) (combine ns l) ->
  dict_get x (map (fun p => (snd p, fst p)) (combine ns l)) = Some n.
Proof.
  revert ns. induction l as [|y l IH]; intros [|m ns] Hnd Hin; try done.
  apply NoDup_cons in Hnd as [Hni Hnd]. rewrite list_elem_of_In in Hni.
  cbn in *. destruct Hin as [[= -> ->]|Hin].
  - by rewrite String.eqb_refl.
  - destruct (String.eqb_spec x y) as [->|Hne].
    + exfalso. apply Hni. by apply in_combine_r in Hin.
    + by apply IH.
Qed.

Lemma map_snd_swap_combine (ns : list nat) (l : list string) :
  length ns = length l ->
  dict_keys (map (fun p : nat * string => (snd p, fst p)) (combine ns l)) = l.
Proof.
  revert ns. induction l as [|y l IH]; intros [|m ns] Hlen; try done.
  cbn in *. f_equal. apply IH. lia.
Qed.
End PositionsOfIds.

(** ** The invariant of the store under deletion *)
Section StoreInvariant.
Context `{Collaborators}.

Lemma mem_nat_In (x : nat) (l : list nat) : mem_nat x l = true <-> In x l.
Proof.
  unfold mem_nat. rewrite existsb_exists. split.
  - intros [y [Hin Heq]]. apply Nat.eqb_eq in Heq. by subst.
  - intros Hin. exists x. split; [done|]. apply Nat.eqb_refl.
Qed.

(** Dropping the positions of the given identifiers from the identifier
    table leaves the identifiers that were not given. *)
Lemma drop_positions_ids (l ids : list string) :
  NoDup l ->
  (forall i, In i ids -> In i l) ->
  drop_positions
    (map (fun i =>
            default 0%nat
              (dict_get i
                 (dict_update []
                    (map (fun p : nat * string => (snd p, fst p))
                       (enumerate l))))) ids) l
  = List.filter (fun x => negb (mem_string x ids)) l.
Proof.
  intros Hnd Hsub. unfold enumerate.
  assert (length (seq 0 (length l)) = length l) as Hlen by apply length_seq.
  rewrite dict_update_fresh;
    [rewrite app_nil_l
    |by rewrite map_snd_swap_combine
    |by intros k _ []].
  unfold drop_positions, enumerate.
  apply map_snd_filter_combine; [done|].
  intros [n x] Hin. cbn [fst snd]. f_equal.
  apply eq_true_iff_eq. rewrite mem_nat_In, mem_string_In, in_map_iff.
  split.
  - intros [i [Hpos Hi]].
    destruct (combine_snd_In (seq 0 (length l)) l i Hlen (Hsub i Hi))
      as [m Hm].
    rewrite (dict_get_swap_combine _ _ m i Hnd Hm) in Hpos.
    cbn in Hpos. subst m.
    assert (x = i) as ->; [|done].
    eapply combine_fst_functional; [|exact Hin|exact Hm].
    apply NoDup_ListNoDup, seq_NoDup.
  - intros Hx. exists x. split; [|done].
    by rewrite (dict_get_swap_combine _ _ n x Hnd Hin).
Qed.

Lemma length_filter_combine {A B C : Type} (ns : list A) (l1 : list B)
    (l2 : list C) (Q : A -> bool) :
  length l1 = length l2 ->
  length (List.filter (fun p => Q (fst p)) (combine ns l1))
  = length (List.filter (fun p => Q (fst p)) (combine ns l2)).
Proof.
  revert l1 l2. induction ns as [|n ns IH]; intros [|x l1] [|y l2] Hlen;
    try done.
  cbn in *. destruct (Q n); cbn; rewrite (IH l1 l2); lia.
Qed.

Lemma length_drop_positions {B C : Type} (ps : list nat) (l1 : list B)
    (l2 : list C) :
  length l1 = length l2 ->
  length (drop_positions ps l1) = length (drop_positions ps l2).
Proof.
  intros Hlen. unfold drop_positions, enumerate. rewrite !length_map, Hlen.
  by apply (length_filter_combine _ _ _ (fun n => negb (mem_nat n ps))).
Qed.

Lemma filter_NoDup (l : list string) (p : string -> bool) :
  NoDup l -> NoDup (List.filter p l).
Proof.
  induction 1 as [|x l Hni Hnd IH]; [constructor|].
  cbn. destruct (p x); [|done]. constructor; [|done].
  rewrite list_elem_of_In in *. intros Hin. apply Hni.
  by apply filter_In in Hin as [Hin _].
Qed.

Lemma keys_filter (d : list (string * Document)) (p : string -> bool) :
  dict_keys (List.filter (fun kv => p (fst kv)) d)
  = List.filter p (dict_keys d).
Proof.
  unfold dict_keys. induction d as [|kv d IH]; [done|]. cbn.
  destruct (p (fst kv)); cbn; by rewrite IH.
Qed.

Lemma empty_store_wf (emb : list string -> Exn + list Vec) :
  store_wf (empty_store emb).
Proof. repeat split. constructor. Qed.

(** [FAISS.delete] of distinct stored identifiers, at least one, keeps
    the invariant and leaves in the table the identifiers that were not
    given. *)
Lemma faiss_delete_wf (ids : list string) (vs : FAISS) :
  store_wf vs ->
  ids <> [] ->
  NoDup ids ->
  (forall i, In i ids -> In i (index_to_docstore_id vs)) ->
  store_wf (snd (faiss_delete ids vs))
  /\ index_to_docstore_id (snd (faiss_delete ids vs))
     = List.filter (fun x => negb (mem_string x ids)) (index_to_docstore_id vs).
Proof.
  intros (Hnd & Hkeys & Hlen) Hne Hndi Hsub.
  assert (forall i, In i ids -> In i (dict_keys (docstore vs))) as Hsub'.
  { intros i Hi. rewrite Hkeys. by apply Hsub. }
  destruct (faiss_delete_ok ids vs Hne Hndi Hsub Hsub') as (_ & Hdoc & _).
  revert Hdoc. unfold faiss_delete.
  assert (existsb (fun i => negb (mem_string i (index_to_docstore_id vs))) ids
          = false) as ->.
  { apply existsb_false. intros i Hi. apply negb_false_iff, mem_string_In. auto. }
  unfold docstore_delete. cbn [docstore set_index].
  assert (existsb (fun i => dict_mem i (docstore vs)) ids = true) as ->.
  { destruct ids as [|i ids']; [done|]. cbn.
    assert (dict_mem i (docstore vs) = true) as ->; [|done].
    apply dict_mem_In, Hsub'. by left. }
  cbn [negb]. rewrite pop_all_ok by done.
  cbn [fst snd docstore index index_to_docstore_id set_docstore set_index
       set_index_to_docstore_id].
  intros _. unfold reversed_index.
  rewrite drop_positions_ids by done.
  split; [|done].
  unfold store_wf, set_index_to_docstore_id, set_docstore, set_index.
  cbn [docstore index index_to_docstore_id embeddings].
  repeat split.
  - by apply filter_NoDup.
  - by rewrite (keys_filter _ (fun k => negb (mem_string k ids))), Hkeys.
  - rewrite <- (drop_positions_ids _ ids) by done.
    by apply length_drop_positions.
Qed.
Lemma keys_combine {V : Type} (ks : list string) (vals : list V) :
  length ks = length vals -> dict_keys (combine ks vals) = ks.
Proof.
  revert vals. induction ks as [|k ks IH]; intros [|v vals] Hlen; try done.
  cbn in *. f_equal. apply IH. lia.
Qed.

(** [FAISS.add_embeddings] with identifiers that are distinct and new to
    the store keeps the invariant, hands those identifiers out and puts
    them at the end of the table. *)
Lemma faiss_add_embeddings_wf (fresh : list string)
    (te : list (string * Vec)) (metadatas : list (gmap string string))
    (vs : FAISS) (ids : list string) :
  store_wf vs ->
  NoDup fresh ->
  (forall i, In i fresh -> ~ In i (index_to_docstore_id vs)) ->
  length fresh = length te ->
  fst (faiss_add_embeddings fresh te metadatas vs) = inr ids ->
  ids = fresh
  /\ store_wf (snd (faiss_add_embeddings fresh te metadatas vs))
  /\ index_to_docstore_id (snd (faiss_add_embeddings fresh te metadatas vs))
     = index_to_docstore_id vs ++ fresh.
Proof.
  intros (Hnd & Hkeys & Hlen) Hfresh Hnew Hn. unfold faiss_add_embeddings.
  destruct te as [|t te']; [done|]. set (te := t :: te') in *.
  destruct (length (map fst te) =? length metadatas)%nat eqn:Hm; [|done].
  apply Nat.eqb_eq in Hm. cbn [negb].
  assert (firstn (length (map fst te)) fresh = fresh) as ->.
  { apply firstn_all2. rewrite length_map. lia. }
  set (documents := map (fun tm => mkDocument (fst tm) (snd tm))
                      (combine (map fst te) metadatas)).
  assert (length fresh = length documents) as Hld.
  { subst documents. rewrite length_map, length_combine, <- Hm, length_map. lia. }
  rewrite dict_update_fresh;
    [rewrite app_nil_l
    |by rewrite keys_combine
    |by intros k _ []].
  unfold docstore_add. cbn [docstore set_index].
  assert (existsb (fun k => dict_mem k (docstore vs))
            (dict_keys (combine fresh documents)) = false) as ->.
  { apply existsb_false. intros i Hi. rewrite keys_combine in Hi by done.
    destruct (dict_mem i (docstore vs)) eqn:Hmem; [|done].
    apply dict_mem_In in Hmem. rewrite Hkeys in Hmem. by apply Hnew in Hi. }
  cbn [fst snd]. intros [= <-]. split; [done|].
  unfold store_wf, set_index_to_docstore_id, set_docstore, set_index.
  cbn [docstore index index_to_docstore_id embeddings].
  split; [|done]. split; [|split].
  - apply NoDup_app. split; [done|]. split; [|done].
    intros i Hi Hi'. rewrite list_elem_of_In in Hi, Hi'. by apply (Hnew i).
  - rewrite dict_update_fresh.
    + unfold dict_keys. rewrite map_app. fold (dict_keys (docstore vs)).
      fold (dict_keys (combine fresh documents)).
      by rewrite keys_combine, Hkeys.
    + by rewrite keys_combine.
    + intros i Hi. rewrite keys_combine in Hi by done.
      rewrite Hkeys. by apply Hnew.
  - rewrite !length_app, length_map. lia.
Qed.
End StoreInvariant.

(** ** Making directories *)
Section MakedirsLemmas.
Context `{Collaborators}.

Lemma can_makedirs_spec (p : path) (w : World) :
  can_makedirs p w = true
  <-> (forall q, In q (p :: ancestors_and_self p) -> is_file (fs w !! q) = false).
Proof.
  unfold can_makedirs.
  rewrite andb_true_iff, !negb_true_iff, existsb_false. split.
  - intros [Ha Hp] q [<-|Hq]; auto.
  - intros Hall. split; [|apply Hall; by left].
    intros q Hq. apply Hall. by right.
Qed.

Lemma ancestors_length (p q : path) :
  In q (ancestors_and_self p) -> length q <= length p.
Proof.
  unfold ancestors_and_self. rewrite in_map_iff.
  intros [n [<- _]]. rewrite length_firstn. lia.
Qed.

Lemma self_in_ancestors (p : path) : p <> [] -> In p (ancestors_and_self p).
Proof.
  intros Hne. unfold ancestors_and_self. apply in_map_iff.
  exists (length p). split; [apply firstn_all|].
  apply in_seq. destruct p; [done|]. cbn. lia.
Qed.

Lemma child_not_ancestor (p : path) (x : string) (q : path) :
  In q (p :: ancestors_and_self p) -> q <> p ++ [x].
Proof.
  intros Hq ->. destruct Hq as [Heq|Hq].
  - apply (f_equal (@length string)) in Heq.
    rewrite length_app in Heq. cbn in Heq. lia.
  - apply ancestors_length in Hq.
    rewrite length_app in Hq. cbn in Hq. lia.
Qed.

Lemma in_removelast {A : Type} (x : A) (l : list A) :
  In x (removelast l) -> In x l.
Proof.
  induction l as [|a [|b l] IH]; cbn; [done|done|].
  intros [<-|Hx]; [by left|]. right. by apply IH.
Qed.

Lemma ensure_dirs_keeps (l : list path) (m : gmap path Node) (q : path) :
  is_file (m !! q) = false ->
  is_file (fold_left (fun f q => <[q := Dir]> f) l m !! q) = false.
Proof.
  revert m. induction l as [|a l IH]; intros m Hm; [done|].
  cbn. apply IH. destruct (decide (a = q)) as [->|Hne].
  - by rewrite lookup_insert_eq.
  - by rewrite lookup_insert_ne.
Qed.

Lemma ensure_dirs_dir (l : list path) (m : gmap path Node) (q : path) :
  m !! q = Some Dir ->
  fold_left (fun f q => <[q := Dir]> f) l m !! q = Some Dir.
Proof.
  revert m. induction l as [|a l IH]; intros m Hm; [done|].
  cbn. apply IH. destruct (decide (a = q)) as [->|Hne].
  - by rewrite lookup_insert_eq.
  - by rewrite lookup_insert_ne.
Qed.

Lemma ensure_dirs_in (l : list path) (m : gmap path Node) (q : path) :
  In q l -> fold_left (fun f q => <[q := Dir]> f) l m !! q = Some Dir.
Proof.
  revert m. induction l as [|a l IH]; intros m; [done|].
  intros [->|Hq]; cbn.
  - apply ensure_dirs_dir. by rewrite lookup_insert_eq.
  - by apply IH.
Qed.

Lemma ensure_dirs_out (l : list path) (m : gmap path Node) (q : path) :
  ~ In q l -> fold_left (fun f q => <[q := Dir]> f) l m !! q = m !! q.
Proof.
  revert m. induction l as [|a l IH]; intros m Hq; [done|].
  cbn. rewrite IH.
  - apply lookup_insert_ne. intros ->. apply Hq. by left.
  - intros Hin. apply Hq. by right.
Qed.

(** Where no file is in the way, [makedirs] with [exist_ok] succeeds;
    it leaves a directory at the path, puts no file anywhere, and
    touches nothing beside the path and its ancestors. *)
Lemma makedirs_can (p : path) (w : World) :
  can_makedirs p w = true ->
  fst (makedirs p true w) = inr tt
  /\ (forall q, is_file (fs w !! q) = false ->
        is_file (fs (snd (makedirs p true w)) !! q) = false)
  /\ (fs w !! p = Some Dir -> snd (makedirs p true w) = w)
  /\ (p <> [] -> fs (snd (makedirs p true w)) !! p = Some Dir)
  /\ (forall q, ~ In q (ancestors_and_self p) ->
        fs (snd (makedirs p true w)) !! q = fs w !! q)
  /\ (forall q, In q (ancestors_and_self p) -> fs w !! p = None ->
        fs (snd (makedirs p true w)) !! q = Some Dir).
Proof.
  intros Hcan0. pose proof (proj1 (can_makedirs_spec p w) Hcan0) as Hcan.
  unfold makedirs.
  assert (existsb (fun q => is_file (fs w !! q))
            (removelast (ancestors_and_self p)) = false) as ->.
  { apply existsb_false. intros q Hq. apply Hcan. right.
    by apply in_removelast. }
  destruct (fs w !! p) as [n|] eqn:Hp.
  - assert (n = Dir) as ->.
    { specialize (Hcan p (or_introl eq_refl)). rewrite Hp in Hcan.
      by destruct n. }
    cbn [fst snd]. repeat split; try done.
  - cbn [fst snd set_fs fs]. split; [done|]. split.
    { intros q Hq. by apply ensure_dirs_keeps. }
    split; [done|]. split.
    { intros Hne. by apply ensure_dirs_in, self_in_ancestors. }
    split.
    { intros q Hq. by apply ensure_dirs_out. }
    intros q Hq _. by apply ensure_dirs_in.
Qed.
End MakedirsLemmas.

Section SaveOk.
Context `{Collaborators}.

(** Where no file is in the way of the folder, the save succeeds, and
    the next save will find the folder as usable. *)
Lemma vs_save_local_ok (k : Key) (p : path) (w : World) (vs : FAISS) :
  pool w !! k = Some vs ->
  can_makedirs p w = true ->
  fst (vs_save_local k p w) = inr tt
  /\ can_makedirs p (snd (vs_save_local k p w)) = true.
Proof.
  intros Hk Hcan. unfold vs_save_local. rewrite bind_emit, bind_run.
  set (w0 := add_trace [EvSaveLocal p] w).
  assert (can_makedirs p w0 = true) as Hcan0 by exact Hcan.
  destruct (makedirs_can p w0 Hcan0) as (Hfst & Hkeep & _).
  destruct (makedirs_frame p true w0) as (Hpool & _).
  rewrite Hfst, bind_run.
  rewrite (vs_call_read _ _ _ vs) by (by rewrite Hpool).
  cbn [fst snd]. unfold bind, write_file. cbn [fst snd set_fs fs].
  split; [done|].
  apply can_makedirs_spec. intros q Hq. cbn [fs set_fs].
  rewrite !lookup_insert_ne by (symmetry; by apply child_not_ancestor).
  apply Hkeep. by apply (proj1 (can_makedirs_spec p w0) Hcan0).
Qed.
End SaveOk.

(** ** Deleting by source *)
Section DeleteBySource.
Context `{Collaborators} `{!Retrievers}.



Lemma vs_delete_run (k : Key) (ids : list string) (w : World) (vs : FAISS) :
  pool w !! k = Some vs ->
  vs_delete k ids w
  = (fst (faiss_delete ids vs),
     set_pool (<[k := snd (faiss_delete ids vs)]> (pool w))
       (add_trace [EvDelete k ids] w)).
Proof.
  intros Hk. unfold vs_delete. rewrite bind_emit.
  by rewrite (vs_call_at _ _ _ vs) by exact Hk.
Qed.

Lemma can_makedirs_fs (p : path) (w1 w2 : World) :
  fs w1 = fs w2 -> can_makedirs p w1 = can_makedirs p w2.
Proof. unfold can_makedirs. by intros ->. Qed.





End DeleteBySource.

(** ** Deleting by identifier *)
Section DeleteByIds.
Context `{Collaborators} `{!Retrievers}.

Lemma del_doc_by_ids_run (svc : FaissKBService) (ids : list string)
    (w : World) (vs : FAISS) :
  let k := svc_key svc in
  let r := faiss_delete ids vs in
  index_of k (embed_model svc) w = inr vs ->
  del_doc_by_ids svc ids w
  = (match fst r with inl e => inl e | inr _ => inr tt end,
     add_trace (load_events k w ++ [EvAcquire k; EvDelete k ids; EvRelease k])
       (set_pool (<[k := snd r]> (pool w)) w)).
Proof.
  intros k r Hix. unfold del_doc_by_ids.
  rewrite (with_vector_store_ok _ _ _ vs) by exact Hix. fold k.
  rewrite bind_run.
  rewrite (vs_delete_run _ _ _ vs) by apply pool_leased.
  fold r. cbn [fst snd]. unfold leased.
  destruct (fst r); cbn [fst snd ret]; rewrite !add_trace_app;
    unfold add_trace, set_pool; cbn; by rewrite insert_insert_eq, <- !app_assoc.
Qed.

(** C6, as the code has it: [del_doc_by_ids] hands the identifiers to
    the [delete] of the store and has no handler of its own.  With an
    identifier that is not in the index the call raises [ValueError] and
    removes nothing; with distinct identifiers that are all in the index
    it removes them, without saving, and the same call made again
    raises. *)
Theorem del_doc_by_ids_outcomes (svc : FaissKBService) (ids : list string)
    (w : World) (vs : FAISS) :
  let k := svc_key svc in
  let out := del_doc_by_ids svc ids w in
  index_of k (embed_model svc) w = inr vs ->
  ((exists i, In i ids /\ ~ In i (index_to_docstore_id vs)) ->
     fst out = inl ValueError
     /\ index_of k (embed_model svc) (snd out) = inr vs
     /\ fs (snd out) = fs w)
  /\ (store_wf vs -> ids <> [] -> NoDup ids ->
      (forall i, In i ids -> In i (index_to_docstore_id vs)) ->
      exists vs',
        fst out = inr tt
        /\ index_of k (embed_model svc) (snd out) = inr vs'
        /\ store_wf vs'
        /\ index_to_docstore_id vs'
           = List.filter (fun x => negb (mem_string x ids))
               (index_to_docstore_id vs)
        /\ fs (snd out) = fs w
        /\ fst (del_doc_by_ids svc ids (snd out)) = inl ValueError).
Proof.
  intros k out Hix. subst out.
  rewrite (del_doc_by_ids_run _ _ _ vs) by exact Hix. fold k.
  cbn [fst snd]. rewrite index_of_add_trace, index_of_loaded. split.
  - intros [i [Hi Hni]]. rewrite (faiss_delete_missing ids vs i) by done.
    by cbn.
  - intros Hwf Hne Hnd Hsub.
    destruct (faiss_delete_wf ids vs Hwf Hne Hnd Hsub) as [Hwf' Htab].
    destruct Hwf as (Hnd0 & Hkeys & Hlen).
    destruct (faiss_delete_ok ids vs Hne Hnd Hsub) as (Hok & _).
    { intros i Hi. rewrite Hkeys. by apply Hsub. }
    exists (snd (faiss_delete ids vs)). rewrite Hok.
    split; [done|]. split; [done|]. split; [done|]. split; [done|].
    split; [done|].
    rewrite (del_doc_by_ids_run _ _ _ (snd (faiss_delete ids vs))).
    2: { rewrite index_of_add_trace. apply index_of_loaded. }
    cbn [fst]. destruct ids as [|i ids']; [done|].
    rewrite (faiss_delete_missing _ _ i); [done|by left|].
    rewrite Htab. intros Hin. apply filter_In in Hin as [_ Hno].
    apply negb_true_iff, mem_string_false in Hno. apply Hno. by left.
Qed.
End DeleteByIds.

(** ** Initialisation and the catalog *)
Section InitAndExist.
Context `{Collaborators} `{!Retrievers}.

Lemma replace_length (old new : ascii) (s : string) :
  String.length (replace old new s) = String.length s.
Proof. induction s as [|c s IH]; cbn; [done|]. by rewrite IH. Qed.

Lemma replace_get (old new : ascii) (s : string) (n : nat) :
  String.get n (replace old new s)
  = option_map (fun c => if Ascii.eqb c old then new else c) (String.get n s).
Proof.
  revert n. induction s as [|c s IH]; intros n; cbn; [done|].
  destruct n; [done|]. apply IH.
Qed.

(** C5, as the code has it: [do_init] keeps a variant name that is set,
    and otherwise takes the embedding-model identifier with every colon
    replaced by an underscore, every other character kept. *)
Theorem do_init_default_vector_name (svc : FaissKBService) :
  (vector_name svc = None \/ vector_name svc = Some "" ->
     exists vn,
       vector_name (do_init svc) = Some vn
       /\ String.length vn = String.length (embed_model svc)
       /\ (forall n,
             String.get n vn
             = option_map (fun c => if Ascii.eqb c ":" then "_"%char else c)
                 (String.get n (embed_model svc)))
       /\ vs_path (do_init svc) = get_vs_path (kb_name svc) vn)
  /\ (forall s, vector_name svc = Some s -> s <> "" ->
        vector_name (do_init svc) = Some s).
Proof.
  split.
  - intros Hunset. exists (default_vector_name (embed_model svc)).
    unfold do_init, default_vector_name.
    assert (py_or (vector_name svc) (replace ":" "_" (embed_model svc))
            = replace ":" "_" (embed_model svc)) as ->.
    { by destruct Hunset as [->| ->]. }
    cbn [vector_name vs_path]. split; [done|].
    split; [apply replace_length|]. split; [|done].
    intros n. apply replace_get.
  - intros s Hs Hne. unfold do_init. cbn [vector_name].
    rewrite Hs. cbn [py_or].
    destruct (String.eqb_spec s ""); [done|done].
Qed.

End InitAndExist.

(** ** Clearing and dropping *)
Section ClearAndDrop.
Context `{Collaborators} `{!Retrievers}.




Lemma lookup_kept (p q : path) (m : gmap path Node) :
  prefixb p q = false ->
  filter (fun kv => negb (prefixb p (fst kv))) m !! q = m !! q.
Proof.
  intros Hp. apply option_eq. intros n.
  rewrite map_lookup_filter_Some. cbn. rewrite Hp. cbn. tauto.
Qed.

Lemma rmtree_frame (p : path) (w : World) :
  pool (snd (rmtree p w)) = pool w
  /\ trace (snd (rmtree p w)) = trace w
  /\ rm_denied (snd (rmtree p w)) = rm_denied w.
Proof.
  unfold rmtree. destruct (fs w !! p) as [[]|]; try done.
  by destruct (decide (removal_refused p w)).
Qed.


(** A removal keeps what is not below the path. *)
Lemma rmtree_keeps_outside (p q : path) (w : World) :
  prefixb p q = false -> fs (snd (rmtree p w)) !! q = fs w !! q.
Proof.
  intros Hp. unfold rmtree. destruct (fs w !! p) as [[]|]; try done.
  destruct (decide (removal_refused p w)); [done|].
  cbn [snd fs set_fs]. by apply lookup_kept.
Qed.





Lemma try_pass_run (m : M unit) (w : World) :
  try_pass m w = (inr tt, snd (m w)).
Proof. unfold try_pass. by destruct (m w). Qed.

(** The run of [do_clear_vs]: the entry of the key is popped under the
    pool lock, the removal of the directory is tried, and the directory
    is made. *)
Lemma do_clear_vs_run (svc : FaissKBService) (w : World) :
  let k := (kb_name svc, vector_name svc) in
  let w1 := add_trace [EvPoolLock; EvPoolPop k; EvPoolUnlock]
              (set_pool (delete k (pool w)) w) in
  do_clear_vs svc w
  = makedirs (vs_path svc) true (snd (rmtree (vs_path svc) w1)).
Proof.
  intros k w1. unfold do_clear_vs. rewrite bind_run.
  unfold atomic, pool_pop. rewrite bind_emit. unfold finally.
  rewrite bind_emit. cbn [fst snd]. rewrite bind_run, try_pass_run.
  cbn [fst snd]. rewrite log_add_trace.
  match goal with
  | |- makedirs _ _ (snd (rmtree _ ?x)) = _ => replace x with w1; [done|]
  end.
  subst w1. unfold add_trace, set_pool; cbn. by rewrite <- !app_assoc.
Qed.
Lemma py_or_idem (x : option string) (d : string) :
  py_or (Some (py_or x d)) d = py_or x d.
Proof.
  destruct x as [s|]; cbn.
  - destruct (String.eqb s "") eqn:Hs; cbn.
    + by destruct (String.eqb d "").
    + by rewrite Hs.
  - by destruct (String.eqb d "").
Qed.

(** The key that an initialised service pops is the key that it loads. *)
Lemma svc_key_do_init (svc0 : FaissKBService) :
  svc_key (do_init svc0)
  = (kb_name (do_init svc0), vector_name (do_init svc0)).
Proof.
  unfold svc_key, pool_key, do_init. cbn [kb_name vector_name embed_model].
  by rewrite py_or_idem.
Qed.

End ClearAndDrop.

(** * The service at work *)

(** C1 on the batch of three: the second document cannot be embedded, and
    the three stored documents are all that the index holds afterwards. *)
Lemma do_add_doc_embedding_failure_witness :
  let out := @do_add_doc Demo.collab Demo.svc Demo.batch false Demo.w_three in
  @index_of Demo.collab Demo.key "bge:m3" Demo.w_three = inr (Demo.store Demo.three)
  /\ Demo.embed (map page_content Demo.batch) = inl EmbeddingError
  /\ fst out = inl EmbeddingError
  /\ @index_of Demo.collab Demo.key "bge:m3" (snd out) = inr (Demo.store Demo.three)
  /\ fs (snd out) = fs Demo.w_three.
Proof.
  intros out.
  assert (@index_of Demo.collab Demo.key "bge:m3" Demo.w_three
          = inr (Demo.store Demo.three)) as H1 by reflexivity.
  assert (Demo.embed (map page_content Demo.batch) = inl EmbeddingError)
    as H2 by reflexivity.
  destruct (@do_add_doc_embedding_failure Demo.collab Demo.svc Demo.batch false
              Demo.w_three _ _ H1 H2) as (A & B & _ & C & _).
  exact (conj H1 (conj H2 (conj A (conj B C)))).
Defined.





(** C4 as stated fails on every batch: the embeddings are computed after
    the lease is acquired. *)
Lemma do_add_doc_embeds_inside_lease :
  embeds_before_lease
    (trace (snd (@do_add_doc Demo.collab Demo.svc
                   [Demo.doc "a" "a.txt"; Demo.doc "b" "a.txt"] false
                   Demo.w_three)))
  = false.
Proof. vm_compute. reflexivity. Qed.

(** C4 on a batch of two: lease, embedding, insertion, save, release. *)
Lemma do_add_doc_lease_order_witness :
  let docs := [Demo.doc "a" "a.txt"; Demo.doc "b" "a.txt"] in
  @index_of Demo.collab Demo.key "bge:m3" Demo.w_three = inr (Demo.store Demo.three)
  /\ trace (snd (@do_add_doc Demo.collab Demo.svc docs false Demo.w_three))
     = [EvPoolLock; EvPoolUnlock; EvAcquire Demo.key;
        EvEmbedDocuments ["a"; "b"]; EvAddEmbeddings Demo.key;
        EvSaveLocal (vs_path Demo.svc); EvRelease Demo.key].
Proof.
  intros docs.
  assert (@index_of Demo.collab Demo.key "bge:m3" Demo.w_three
          = inr (Demo.store Demo.three)) as H1 by reflexivity.
  split; [exact H1|].
  rewrite (@do_add_doc_lease_order Demo.collab Demo.svc docs false
             Demo.w_three _ H1).
  vm_compute. reflexivity.
Defined.

(** C5 as stated fails on a model name with a hyphen: the hyphen is not
    alphanumeric and stays. *)
Lemma do_init_keeps_hyphen :
  let svc := @do_init Demo.collab (mkService "samples" "bge-m3" None [] []) in
  vector_name svc = Some "bge-m3"
  /\ string_forallb isalnum "bge-m3" = false
  /\ vector_name svc <> Some (normalized "_" "bge-m3").
Proof. split; [reflexivity|]. split; [reflexivity|]. by vm_compute. Qed.

(** C5 on a model name with a colon. *)
Lemma do_init_default_vector_name_witness :
  let svc := mkService "samples" "bge:m3" None [] [] in
  vector_name svc = None
  /\ exists vn,
       vector_name (@do_init Demo.collab svc) = Some vn
       /\ String.length vn = 6
       /\ String.get 3 vn = Some "_"%char.
Proof.
  intros svc. split; [reflexivity|].
  destruct (proj1 (@do_init_default_vector_name Demo.collab svc)
              (or_introl eq_refl)) as (vn & Hvn & Hlen & Hget & _).
  exists vn. split; [exact Hvn|]. split; [exact Hlen|]. exact (Hget 3).
Defined.

(** C6 as stated fails on an identifier that the index does not hold: the
    call raises. *)
Lemma del_doc_by_ids_unknown_id_raises :
  fst (@del_doc_by_ids Demo.collab Demo.svc ["nope"] Demo.w_three)
  = inl ValueError.
Proof. vm_compute. reflexivity. Qed.

(** C6 on the three documents: an unknown identifier raises and removes
    nothing; a stored one is removed, and the same call again raises. *)
Lemma del_doc_by_ids_outcomes_witness :
  let out1 := @del_doc_by_ids Demo.collab Demo.svc ["nope"] Demo.w_three in
  let out2 := @del_doc_by_ids Demo.collab Demo.svc ["x"] Demo.w_three in
  @index_of Demo.collab Demo.key "bge:m3" Demo.w_three = inr (Demo.store Demo.three)
  /\ (fst out1 = inl ValueError
      /\ @index_of Demo.collab Demo.key "bge:m3" (snd out1)
         = inr (Demo.store Demo.three))
  /\ (fst out2 = inr tt
      /\ fst (@del_doc_by_ids Demo.collab Demo.svc ["x"] (snd out2))
         = inl ValueError).
Proof.
  intros out1 out2.
  assert (@index_of Demo.collab Demo.key "bge:m3" Demo.w_three
          = inr (Demo.store Demo.three)) as H1 by reflexivity.
  split; [exact H1|]. split.
  - destruct (proj1 (@del_doc_by_ids_outcomes Demo.collab Demo.svc ["nope"]
                       Demo.w_three _ H1)) as (A & B & _).
    + exists "nope". split; [by left|]. vm_compute. intuition discriminate.
    + exact (conj A B).
  - destruct (proj2 (@del_doc_by_ids_outcomes Demo.collab Demo.svc ["x"]
                       Demo.w_three _ H1)) as (vs' & A & _ & _ & _ & _ & B).
    + split; [|split; reflexivity]. apply (bool_decide_unpack _). by vm_compute.
    + discriminate.
    + apply (bool_decide_unpack _). by vm_compute.
    + intros i [<-|[]]. vm_compute. by left.
    + exact (conj A B).
Defined.


(** C8 on the three documents: the search leaves disk and index as they
    were. *)
Lemma do_search_read_only_witness :
  let out := @do_search Demo.collab Demo.retr Demo.svc "hello" 2%Z 0%Z
               Demo.w_three in
  fs (snd out) = fs Demo.w_three
  /\ @index_of Demo.collab Demo.key "bge:m3" (snd out)
     = inr (Demo.store Demo.three)
  /\ trace (snd out)
     = [EvPoolLock; EvPoolUnlock; EvAcquire Demo.key; EvRetrieve "hello";
        EvRelease Demo.key].
Proof.
  intros out.
  destruct (@do_search_read_only Demo.collab Demo.retr Demo.svc "hello" 2%Z 0%Z
              Demo.w_three) as (A & B & _ & t & C & _ & D).
  split; [exact A|]. split; [exact B|].
  fold out in C. rewrite C. rewrite (D _ eq_refl). reflexivity.
Defined.

(** C9 on the three documents: a known, an unknown and a known
    identifier. *)
Lemma get_doc_by_ids_positions_witness :
  let ids := ["x"; "nope"; "z"] in
  @index_of Demo.collab Demo.key "bge:m3" Demo.w_three = inr (Demo.store Demo.three)
  /\ exists docs,
       fst (@get_doc_by_ids Demo.collab Demo.svc ids Demo.w_three) = inr docs
       /\ length docs = 3
       /\ nth_error docs 0 = Some (Some (Demo.doc "hello world" "a.txt"))
       /\ nth_error docs 1 = Some None
       /\ nth_error docs 2 = Some (Some (Demo.doc "hello again" "A.TXT")).
Proof.
  intros ids.
  assert (@index_of Demo.collab Demo.key "bge:m3" Demo.w_three
          = inr (Demo.store Demo.three)) as H1 by reflexivity.
  split; [exact H1|].
  destruct (@get_doc_by_ids_positions Demo.collab Demo.svc ids Demo.w_three _ H1)
    as (docs & A & B & C & _).
  exists docs. split; [exact A|]. split; [exact B|].
  split; [|split].
  - exact (proj1 (C 0 "x" eq_refl)).
  - exact (proj1 (C 1 "nope" eq_refl)).
  - exact (proj1 (C 2 "z" eq_refl)).
Defined.


(** * More of the service *)

(** ** Creating a knowledge base *)
Section Creating.
Context `{Collaborators} `{!Retrievers}.

(** The directory of an initialised service is the directory from which
    the pool restores its key. *)
Lemma key_path_do_init (svc0 : FaissKBService) :
  key_path (svc_key (do_init svc0)) = vs_path (do_init svc0).
Proof.
  unfold svc_key, pool_key, key_path, do_init.
  cbn [kb_name vector_name embed_model vs_path fst snd default].
  by rewrite py_or_idem.
Qed.

Lemma construct_same_fs (k : Key) (em : string) (w1 w2 : World) :
  fs w1 !! (key_path k ++ ["index.faiss"]) = fs w2 !! (key_path k ++ ["index.faiss"]) ->
  fs w1 !! (key_path k ++ ["index.pkl"]) = fs w2 !! (key_path k ++ ["index.pkl"]) ->
  construct k em w1 = construct k em w2.
Proof. unfold construct. by intros -> ->. Qed.

Lemma makedirs_absent (p : path) (ok : bool) (w : World) :
  fs w !! p = None -> makedirs p ok w = makedirs p true w.
Proof. intros Hp. unfold makedirs. by rewrite Hp. Qed.

Lemma makedirs_outside (p q : path) (ok : bool) (w : World) :
  ~ In q (ancestors_and_self p) ->
  fs (snd (makedirs p ok w)) !! q = fs w !! q.
Proof.
  intros Hq. unfold makedirs. destruct (existsb _ _); [done|].
  destruct (fs w !! p) as [[]|]; try done; [by destruct ok|].
  cbn [snd fs set_fs]. by apply ensure_dirs_out.
Qed.

(** The first statement of [do_create_kb], where no file is in the way:
    the directory is there afterwards, and nothing else has changed. *)
Lemma ensure_vs_path (p : path) (w : World) :
  p <> [] ->
  can_makedirs p w = true ->
  let m := if negb (path_exists p w) then makedirs p false w else ret tt w in
  fst m = inr tt
  /\ pool (snd m) = pool w
  /\ trace (snd m) = trace w
  /\ fs (snd m) !! p = Some Dir
  /\ (forall q, ~ In q (ancestors_and_self p) -> fs (snd m) !! q = fs w !! q)
  /\ (fs w !! p = Some Dir -> snd m = w)
  /\ can_makedirs p (snd m) = true.
Proof.
  intros Hne Hcan m. subst m. unfold path_exists.
  destruct (fs w !! p) as [n|] eqn:Hp; cbn [negb].
  - assert (n = Dir) as ->.
    { pose proof (proj1 (can_makedirs_spec p w) Hcan p (or_introl eq_refl)) as Hf.
      rewrite Hp in Hf. by destruct n. }
    cbn [ret fst snd]. repeat split; done.
  - rewrite makedirs_absent by done.
    destruct (makedirs_can p w Hcan) as (Hfst & Hkeep & _ & Hdir & Hout & _).
    destruct (makedirs_frame p true w) as (Hpool & Htrace & _).
    split; [done|]. split; [done|]. split; [done|]. split; [by apply Hdir|].
    split; [done|]. split; [intros [=]|].
    apply can_makedirs_spec. intros q Hq. apply Hkeep.
    by apply (proj1 (can_makedirs_spec p w) Hcan).
Qed.

(** The run of [do_create_kb] of an initialised service, where no file is
    in the way and the index of the key can be had. *)
Lemma do_create_kb_run (svc0 : FaissKBService) (w : World) (vs : FAISS) :
  let svc := do_init svc0 in
  let k := svc_key svc in
  can_makedirs (vs_path svc) w = true ->
  index_of k (embed_model svc) w = inr vs ->
  exists w1,
    do_create_kb svc w
    = (inr tt, add_trace (load_events k w) (set_pool (<[k := vs]> (pool w)) w1))
    /\ pool w1 = pool w
    /\ trace w1 = trace w
    /\ fs w1 !! vs_path svc = Some Dir
    /\ (forall q, ~ In q (ancestors_and_self (vs_path svc)) ->
          fs w1 !! q = fs w !! q)
    /\ (fs w !! vs_path svc = Some Dir -> w1 = w)
    /\ can_makedirs (vs_path svc) w1 = true.
Proof.
  intros svc k Hcan Hix. set (p := vs_path svc).
  assert (key_path k = p) as Hkp by apply key_path_do_init.
  assert (p <> []) as Hne.
  { subst p svc. unfold do_init, get_vs_path. cbn [vs_path].
    by destruct (get_kb_path (kb_name svc0)). }
  destruct (ensure_vs_path p w Hne Hcan)
    as (Hfst & Hpool & Htrace & Hdir & Hout & Hsame & Hcan').
  set (m := if negb (path_exists p w) then makedirs p false w else ret tt w) in *.
  exists (snd m). split; [|done].
  unfold do_create_kb. rewrite bind_run. fold p. fold m. rewrite Hfst.
  rewrite bind_run. unfold load_vector_store.
  assert (index_of k (embed_model svc) (snd m) = inr vs) as Hix'.
  { rewrite <- Hix. unfold index_of. rewrite Hpool.
    destruct (pool w !! k); [done|].
    apply construct_same_fs; apply Hout; rewrite Hkp;
      intros Hin; exact (child_not_ancestor p _ _ (or_intror Hin) eq_refl). }
  rewrite (pool_load_ok _ _ _ _ vs) by exact Hix'.
  fold (svc_key svc). fold k. cbn [fst snd ret].
  unfold load_events. by rewrite Hpool.
Qed.

(** X1: [do_create_kb], where no file is in the way, makes the directory
    of the key and loads its index into the pool: it returns normally, the
    directory is there, the pool holds for the key the index that the key
    had (restored from its snapshot, or empty), the other entries and the
    files beside the directory path are untouched. *)
Theorem do_create_kb_creates (svc0 : FaissKBService) (w : World) (vs : FAISS) :
  let svc := do_init svc0 in
  let k := svc_key svc in
  let out := do_create_kb svc w in
  can_makedirs (vs_path svc) w = true ->
  index_of k (embed_model svc) w = inr vs ->
  fst out = inr tt
  /\ pool (snd out) !! k = Some vs
  /\ (forall k', k' <> k -> pool (snd out) !! k' = pool w !! k')
  /\ fs (snd out) !! vs_path svc = Some Dir
  /\ (forall q, ~ In q (ancestors_and_self (vs_path svc)) ->
        fs (snd out) !! q = fs w !! q).
Proof.
  intros svc k out Hcan Hix. subst out.
  destruct (do_create_kb_run svc0 w vs Hcan Hix)
    as (w1 & Hrun & Hpool & _ & Hdir & Hout & _).
  fold svc k in Hrun, Hdir, Hout. rewrite Hrun.
  cbn [fst snd pool fs add_trace set_pool].
  split; [done|]. split; [apply lookup_insert_eq|]. split; [|done].
  intros k' Hne. by rewrite lookup_insert_ne.
Qed.

(** X2: [do_create_kb] is idempotent: called again on the world that it
    left, it returns normally and changes neither pool nor disk. *)
Theorem do_create_kb_idempotent (svc0 : FaissKBService) (w : World) (vs : FAISS) :
  let svc := do_init svc0 in
  let k := svc_key svc in
  let w1 := snd (do_create_kb svc w) in
  can_makedirs (vs_path svc) w = true ->
  index_of k (embed_model svc) w = inr vs ->
  do_create_kb svc w1 = (inr tt, add_trace [EvPoolLock; EvPoolUnlock] w1).
Proof.
  intros svc k w1 Hcan Hix.
  destruct (do_create_kb_run svc0 w vs Hcan Hix)
    as (w0 & Hrun & Hpool & _ & Hdir & _ & _ & Hcan0).
  fold svc k in Hrun, Hdir, Hcan0.
  assert (pool w1 !! k = Some vs) as Hk.
  { subst w1. rewrite Hrun. cbn. apply lookup_insert_eq. }
  assert (fs w1 = fs w0) as Hfs by (subst w1; by rewrite Hrun).
  assert (can_makedirs (vs_path svc) w1 = true) as Hcan1.
  { by rewrite (can_makedirs_fs _ w1 w0). }
  assert (index_of k (embed_model svc) w1 = inr vs) as Hix1.
  { unfold index_of. by rewrite Hk. }
  destruct (do_create_kb_run svc0 w1 vs Hcan1 Hix1)
    as (w2 & Hrun2 & _ & _ & _ & _ & Hsame & _).
  fold svc k in Hrun2, Hsame.
  rewrite Hrun2, Hsame by (by rewrite Hfs).
  unfold load_events. rewrite Hk. by rewrite set_pool_insert_id.
Qed.
(** X3: [do_create_kb] where the directory is not there and a regular
    file stands in the place of one of its ancestors raises
    [NotADirectoryError] before it loads anything: pool, disk and trace
    are as they were. *)
Theorem do_create_kb_blocked (svc : FaissKBService) (w : World) (q : path) :
  fs w !! vs_path svc = None ->
  In q (removelast (ancestors_and_self (vs_path svc))) ->
  is_file (fs w !! q) = true ->
  do_create_kb svc w = (inl NotADirectoryError, w).
Proof.
  intros Hp Hq Hf. unfold do_create_kb. rewrite bind_run.
  unfold path_exists. rewrite Hp. cbn [negb]. unfold makedirs.
  assert (existsb (fun q => is_file (fs w !! q))
            (removelast (ancestors_and_self (vs_path svc))) = true) as ->.
  { apply existsb_exists. by exists q. }
  done.
Qed.
End Creating.

(** ** A batch that goes in *)
Section AddingMore.
Context `{Collaborators} `{!Retrievers}.

Lemma map_snd_combine {A B : Type} (l : list A) (l' : list B) :
  length l = length l' -> map snd (combine l l') = l'.
Proof.
  revert l'. induction l as [|a l IH]; intros [|b l'] Hlen; try done.
  cbn in *. f_equal. apply IH. lia.
Qed.

Lemma rebuild_docs (docs : list Document) :
  map (fun tm => mkDocument (fst tm) (snd tm))
    (combine (map page_content docs) (map metadata docs))
  = docs.
Proof. induction docs as [|[t m] docs IH]; [done|]. cbn. by rewrite IH. Qed.

(** [FAISS.add_embeddings] of a batch with as many vectors as documents,
    under identifiers that are distinct and new to the store. *)
Lemma faiss_add_embeddings_batch (fresh : list string) (docs : list Document)
    (embs : list Vec) (vs : FAISS) :
  store_wf vs ->
  docs <> [] ->
  length embs = length docs ->
  length fresh = length docs ->
  NoDup fresh ->
  (forall i, In i fresh -> ~ In i (index_to_docstore_id vs)) ->
  faiss_add_embeddings fresh (combine (map page_content docs) embs)
    (map metadata docs) vs
  = (inr fresh, extended vs fresh docs embs).
Proof.
  intros (Hnd & Hkeys & Hlen) Hne Hle Hlf Hfresh Hnew.
  unfold faiss_add_embeddings.
  assert (length (map page_content docs) = length embs) as Hlt.
  { by rewrite length_map. }
  destruct (combine (map page_content docs) embs) as [|t te'] eqn:Hte.
  { apply (f_equal (@length _)) in Hte. rewrite length_combine, Hlt in Hte.
    destruct docs; [done|]. cbn in *. lia. }
  rewrite <- Hte. clear Hte t te'.
  change (map fst (combine (map page_content docs) embs))
    with (dict_keys (combine (map page_content docs) embs)).
  rewrite keys_combine, map_snd_combine by done.
  rewrite !length_map, Nat.eqb_refl. cbn [negb].
  rewrite rebuild_docs.
  rewrite firstn_all2 by lia.
  rewrite dict_update_fresh;
    [rewrite app_nil_l
    |by rewrite keys_combine
    |by intros k _ []].
  unfold docstore_add. cbn [docstore set_index].
  assert (existsb (fun k => dict_mem k (docstore vs))
            (dict_keys (combine fresh docs)) = false) as ->.
  { apply existsb_false. intros i Hi. rewrite keys_combine in Hi by done.
    destruct (dict_mem i (docstore vs)) eqn:Hmem; [|done].
    apply dict_mem_In in Hmem. rewrite Hkeys in Hmem. by apply Hnew in Hi. }
  rewrite dict_update_fresh; [done|by rewrite keys_combine|].
  intros i Hi. rewrite keys_combine in Hi by done.
  rewrite Hkeys. by apply Hnew.
Qed.

(** A save that goes through leaves on disk the store as it is in the
    pool. *)
Lemma vs_save_local_snapshot (k : Key) (p : path) (w : World) (vs : FAISS) :
  pool w !! k = Some vs ->
  fst (vs_save_local k p w) = inr tt ->
  snapshot_of p vs (snd (vs_save_local k p w)).
Proof.
  intros Hk. unfold vs_save_local. rewrite bind_emit, bind_run.
  set (w0 := add_trace [EvSaveLocal p] w).
  destruct (makedirs_frame p true w0) as (Hpool & _).
  destruct (fst (makedirs p true w0)) as [e|[]]; [done|].
  rewrite bind_run.
  rewrite (vs_call_read _ _ _ vs) by (by rewrite Hpool).
  cbn [fst snd]. intros _. unfold bind, write_file, snapshot_of.
  cbn [fst snd set_fs fs]. split.
  - rewrite lookup_insert_ne; [apply lookup_insert_eq|].
    intros Heq. by apply app_inv_head in Heq.
  - apply lookup_insert_eq.
Qed.

(** The run of [do_add_doc] on a batch that goes in. *)
Lemma do_add_doc_ok (svc : FaissKBService) (docs : list Document)
    (not_refresh_vs_cache : bool) (w : World) (vs : FAISS) (embs : list Vec) :
  let k := svc_key svc in
  let fresh := fresh_ids (length docs) w in
  let vs' := extended vs fresh docs embs in
  let out := do_add_doc svc docs not_refresh_vs_cache w in
  index_of k (embed_model svc) w = inr vs ->
  store_wf vs ->
  docs <> [] ->
  embeddings vs (map page_content docs) = inr embs ->
  length embs = length docs ->
  NoDup fresh ->
  (forall i, In i fresh -> ~ In i (index_to_docstore_id vs)) ->
  (not_refresh_vs_cache = true \/ can_makedirs (vs_path svc) w = true) ->
  fst out = inr (doc_infos fresh docs)
  /\ index_of k (embed_model svc) (snd out) = inr vs'
  /\ (not_refresh_vs_cache = false -> snapshot_of (vs_path svc) vs' (snd out))
  /\ (not_refresh_vs_cache = true -> fs (snd out) = fs w)
  /\ (not_refresh_vs_cache = true
      \/ can_makedirs (vs_path svc) (snd out) = true).
Proof.
  intros k fresh vs' out Hix Hwf Hne Hemb Hlen Hnd Hnew Hsave.
  subst out. unfold do_add_doc.
  rewrite bind_run.
  rewrite (with_vector_store_ok _ _ _ vs) by exact Hix. fold k.
  rewrite bind_run.
  rewrite (vs_embed_documents_run _ _ _ vs) by apply pool_leased.
  cbn [fst snd]. rewrite Hemb. rewrite bind_run.
  rewrite (vs_add_embeddings_run _ _ _ _ vs) by apply pool_leased.
  assert (length (combine (map page_content docs) embs) = length docs) as Hlc.
  { rewrite length_combine, length_map. lia. }
  cbn [uuid_next add_trace leased set_pool]. rewrite Hlc.
  change (map uuid4 (seq (uuid_next w) (length docs))) with fresh.
  rewrite faiss_add_embeddings_batch; try done.
  2: { subst fresh. unfold fresh_ids. by rewrite length_map, length_seq. }
  fold vs'. cbn [fst snd]. rewrite bind_run.
  match goal with
  | |- context [(if negb _ then _ else _) ?x] => set (wd := x)
  end.
  assert (pool wd !! k = Some vs') as Hkd by (subst wd; cbn; apply lookup_insert_eq).
  assert (fs wd = fs w) as Hfd by done.
  destruct not_refresh_vs_cache; cbn [negb].
  - cbn [ret fst snd]. split; [done|]. split.
    + rewrite index_of_add_trace. unfold index_of. by rewrite Hkd.
    + split; [done|]. split; [by intros _|by left].
  - destruct Hsave as [[=]|Hcan].
    rewrite <- (can_makedirs_fs _ wd w) in Hcan by exact Hfd.
    destruct (vs_save_local_ok k (vs_path svc) wd vs' Hkd Hcan) as [Hok Hcan'].
    destruct (vs_save_local_frame k (vs_path svc) wd) as [Hpool _].
    pose proof (vs_save_local_snapshot k (vs_path svc) wd vs' Hkd Hok) as Hsnap.
    rewrite Hok. cbn [ret fst snd]. split; [done|]. split.
    + rewrite index_of_add_trace. unfold index_of. by rewrite Hpool, Hkd.
    + split; [by intros _|]. split; [intros [=]|by right].
Qed.
Lemma extended_wf (vs : FAISS) (fresh : list string) (docs : list Document)
    (embs : list Vec) :
  store_wf vs ->
  length embs = length docs ->
  length fresh = length docs ->
  NoDup fresh ->
  (forall i, In i fresh -> ~ In i (index_to_docstore_id vs)) ->
  store_wf (extended vs fresh docs embs).
Proof.
  intros (Hnd & Hkeys & Hlen) Hle Hlf Hfresh Hnew.
  unfold store_wf, extended. cbn [index docstore index_to_docstore_id].
  split; [|split].
  - apply NoDup_app. split; [done|]. split; [|done].
    intros i Hi Hi'. rewrite list_elem_of_In in Hi, Hi'. by apply (Hnew i).
  - unfold dict_keys. rewrite map_app. fold (dict_keys (docstore vs)).
    fold (dict_keys (combine fresh docs)). by rewrite keys_combine, Hkeys.
  - rewrite !length_app. lia.
Qed.

Lemma get_doc_by_ids_run (svc : FaissKBService) (ids : list string)
    (w : World) (vs : FAISS) :
  index_of (svc_key svc) (embed_model svc) w = inr vs ->
  fst (get_doc_by_ids svc ids w)
  = inr (map (fun i => dict_get i (docstore vs)) ids).
Proof.
  intros Hix. unfold get_doc_by_ids.
  rewrite (with_vector_store_ok _ _ _ vs) by exact Hix.
  by rewrite (vs_call_read _ _ _ vs) by apply pool_leased.
Qed.

Lemma dict_get_app_fresh {V : Type} (i : string) (d d' : list (string * V)) :
  ~ In i (dict_keys d) -> dict_get i (d ++ d') = dict_get i d'.
Proof.
  induction d as [|[k v] d IH]; [done|]. cbn. intros Hni.
  destruct (String.eqb_spec i k) as [->|Hne].
  - exfalso. apply Hni. by left.
  - apply IH. intros Hin. apply Hni. by right.
Qed.

(** Looking up, one by one, distinct keys that were appended with their
    values gives the values. *)
Lemma dict_get_appended {V : Type} (d : list (string * V)) (ks : list string)
    (vals : list V) :
  NoDup ks ->
  length ks = length vals ->
  (forall i, In i ks -> ~ In i (dict_keys d)) ->
  map (fun i => dict_get i (d ++ combine ks vals)) ks = map Some vals.
Proof.
  revert d vals. induction ks as [|k ks IH]; intros d [|v vals] Hnd Hlen Hnew;
    try done.
  apply NoDup_cons in Hnd as [Hni Hnd]. rewrite list_elem_of_In in Hni.
  cbn [map combine]. f_equal.
  - rewrite dict_get_app_fresh by (apply Hnew; by left).
    cbn. by rewrite String.eqb_refl.
  - rewrite <- (IH (d ++ [(k, v)]) vals); [|done|by inversion Hlen|].
    + apply map_ext. intros i. by rewrite <- app_assoc.
    + intros i Hi. unfold dict_keys. rewrite map_app, in_app_iff.
      intros [Hin|[<-|[]]]; [|done].
      apply (Hnew i); [by right|done].
Qed.

(** X4: a batch that goes in comes back as one entry for each document, in
    the order given, with the identifier that the store assigned and the
    metadata of the document; the store holds the old documents followed
    by the batch under those identifiers, and keeps its invariant. *)
Theorem do_add_doc_returns_batch (svc : FaissKBService) (docs : list Document)
    (not_refresh_vs_cache : bool) (w : World) (vs : FAISS) (embs : list Vec) :
  let k := svc_key svc in
  let fresh := fresh_ids (length docs) w in
  let out := do_add_doc svc docs not_refresh_vs_cache w in
  index_of k (embed_model svc) w = inr vs ->
  store_wf vs ->
  docs <> [] ->
  embeddings vs (map page_content docs) = inr embs ->
  length embs = length docs ->
  NoDup fresh ->
  (forall i, In i fresh -> ~ In i (index_to_docstore_id vs)) ->
  (not_refresh_vs_cache = true \/ can_makedirs (vs_path svc) w = true) ->
  exists infos vs',
    fst out = inr infos
    /\ map id infos = fresh
    /\ map info_metadata infos = map metadata docs
    /\ index_of k (embed_model svc) (snd out) = inr vs'
    /\ docstore vs' = docstore vs ++ combine fresh docs
    /\ index_to_docstore_id vs' = index_to_docstore_id vs ++ fresh
    /\ store_wf vs'.
Proof.
  intros k fresh out Hix Hwf Hne Hemb Hlen Hnd Hnew Hsave.
  destruct (do_add_doc_ok svc docs not_refresh_vs_cache w vs embs
              Hix Hwf Hne Hemb Hlen Hnd Hnew Hsave) as (Hres & Hix' & _).
  assert (length fresh = length docs) as Hlf.
  { subst fresh. unfold fresh_ids. by rewrite length_map, length_seq. }
  exists (doc_infos fresh docs), (extended vs fresh docs embs).
  split; [done|]. split.
  { unfold doc_infos. rewrite map_map. cbn [id].
    change (map (fun x => fst x) (combine fresh docs))
      with (dict_keys (combine fresh docs)).
    by apply keys_combine. }
  split.
  { unfold doc_infos. rewrite map_map. cbn [info_metadata].
    rewrite <- (map_map snd metadata). by rewrite map_snd_combine. }
  split; [done|]. split; [done|]. split; [done|].
  by apply extended_wf.
Qed.

(** X5: what went in can be looked up: after a batch went in,
    [get_doc_by_ids] on the identifiers that [do_add_doc] returned gives
    back the documents of the batch, in order. *)
Theorem do_add_doc_then_get (svc : FaissKBService) (docs : list Document)
    (not_refresh_vs_cache : bool) (w : World) (vs : FAISS) (embs : list Vec) :
  let k := svc_key svc in
  let fresh := fresh_ids (length docs) w in
  let out := do_add_doc svc docs not_refresh_vs_cache w in
  index_of k (embed_model svc) w = inr vs ->
  store_wf vs ->
  docs <> [] ->
  embeddings vs (map page_content docs) = inr embs ->
  length embs = length docs ->
  NoDup fresh ->
  (forall i, In i fresh -> ~ In i (index_to_docstore_id vs)) ->
  (not_refresh_vs_cache = true \/ can_makedirs (vs_path svc) w = true) ->
  exists infos,
    fst out = inr infos
    /\ fst (get_doc_by_ids svc (map id infos) (snd out)) = inr (map Some docs).
Proof.
  intros k fresh out Hix Hwf Hne Hemb Hlen Hnd Hnew Hsave.
  destruct (do_add_doc_ok svc docs not_refresh_vs_cache w vs embs
              Hix Hwf Hne Hemb Hlen Hnd Hnew Hsave) as (Hres & Hix' & _).
  assert (length fresh = length docs) as Hlf.
  { subst fresh. unfold fresh_ids. by rewrite length_map, length_seq. }
  exists (doc_infos fresh docs). split; [done|].
  assert (map id (doc_infos fresh docs) = fresh) as ->.
  { unfold doc_infos. rewrite map_map. cbn [id].
    change (map (fun x => fst x) (combine fresh docs))
      with (dict_keys (combine fresh docs)).
    by apply keys_combine. }
  rewrite (get_doc_by_ids_run _ _ _ _ Hix'). f_equal.
  cbn [extended docstore]. apply dict_get_appended; [done|done|].
  intros i Hi. destruct Hwf as (_ & -> & _). by apply Hnew.
Qed.

(** X6: an empty batch is refused: when the embedding of no texts goes
    through, [do_add_doc] raises [ValueError], for the store has nothing
    to unpack, and index and disk are as they were. *)
Theorem do_add_doc_empty_batch (svc : FaissKBService)
    (not_refresh_vs_cache : bool) (w : World) (vs : FAISS) (embs : list Vec) :
  let k := svc_key svc in
  let out := do_add_doc svc [] not_refresh_vs_cache w in
  index_of k (embed_model svc) w = inr vs ->
  embeddings vs [] = inr embs ->
  fst out = inl ValueError
  /\ index_of k (embed_model svc) (snd out) = inr vs
  /\ fs (snd out) = fs w.
Proof.
  intros k out Hix Hemb. subst out. unfold do_add_doc.
  rewrite bind_run.
  rewrite (with_vector_store_ok _ _ _ vs) by exact Hix. fold k.
  rewrite bind_run.
  rewrite (vs_embed_documents_run _ _ _ vs) by apply pool_leased.
  cbn [fst snd map]. rewrite Hemb. rewrite bind_run.
  rewrite (vs_add_embeddings_run _ _ _ _ vs) by apply pool_leased.
  cbn [combine faiss_add_embeddings fst snd].
  split; [done|]. split; [|done].
  rewrite index_of_add_trace. unfold index_of. cbn.
  by rewrite lookup_insert_eq.
Qed.
End AddingMore.

(** ** What reaches the disk *)
Section Persisting.
Context `{Collaborators} `{!Retrievers}.

Lemma fs_bind {A B : Type} (m : M A) (f : A -> M B) :
  (forall w, fs (snd (m w)) = fs w) ->
  (forall a w, fs (snd (f a w)) = fs w) ->
  forall w, fs (snd (bind m f w)) = fs w.
Proof.
  intros Hm Hf w. rewrite bind_run.
  destruct (fst (m w)) as [e|a]; cbn [snd]; [apply Hm|].
  by rewrite Hf, Hm.
Qed.

Lemma fs_vs_call {A : Type} (k : Key) (f : FAISS -> (Exn + A) * FAISS)
    (w : World) :
  fs (snd (vs_call k f w)) = fs w.
Proof.
  unfold vs_call. destruct (pool w !! k) as [vs|]; [|done].
  by destruct (f vs).
Qed.

Lemma fs_vs_embed_documents (k : Key) (texts : list string) (w : World) :
  fs (snd (vs_embed_documents k texts w)) = fs w.
Proof. unfold vs_embed_documents. rewrite bind_emit. by rewrite fs_vs_call. Qed.

Lemma fs_vs_add_embeddings (k : Key) (te : list (string * Vec))
    (metadatas : list (gmap string string)) (w : World) :
  fs (snd (vs_add_embeddings k te metadatas w)) = fs w.
Proof. unfold vs_add_embeddings. rewrite bind_emit. by rewrite fs_vs_call. Qed.

Lemma fs_vs_delete (k : Key) (ids : list string) (w : World) :
  fs (snd (vs_delete k ids w)) = fs w.
Proof. unfold vs_delete. rewrite bind_emit. by rewrite fs_vs_call. Qed.

(** A lease whose body leaves the disk alone leaves the disk alone. *)
Lemma fs_with_vector_store {A : Type} (svc : FaissKBService)
    (body : Key -> M A) :
  (forall k w, fs (snd (body k w)) = fs w) ->
  forall w, fs (snd (with_vector_store svc body w)) = fs w.
Proof.
  intros Hbody w.
  destruct (index_of (svc_key svc) (embed_model svc) w) as [e|vs] eqn:Hix.
  - by rewrite (with_vector_store_fail _ _ _ e).
  - rewrite (with_vector_store_ok _ _ _ vs) by exact Hix.
    cbn [snd fs add_trace]. by rewrite Hbody.
Qed.

(** X7: a caller that opts out of the refresh gets no write: with
    [not_refresh_vs_cache] set, [do_add_doc] and [do_delete_doc] leave the
    disk as it is, whatever their outcome. *)
Theorem opt_out_leaves_disk (svc : FaissKBService) (docs : list Document)
    (kb_file : KnowledgeFile) (w : World) :
  fs (snd (do_add_doc svc docs true w)) = fs w
  /\ fs (snd (do_delete_doc svc kb_file true w)) = fs w.
Proof.
  split.
  - unfold do_add_doc. apply fs_bind; [|done].
    apply fs_with_vector_store. intros k.
    apply fs_bind; [apply fs_vs_embed_documents|]. intros embs.
    apply fs_bind; [apply fs_vs_add_embeddings|]. intros ids.
    apply fs_bind; done.
  - unfold do_delete_doc. apply fs_with_vector_store. intros k.
    apply fs_bind; [intros w0; apply fs_vs_call|]. intros ids.
    apply fs_bind.
    { intros w0. destruct (0 <? length ids)%nat; [|done].
      apply fs_bind; [apply fs_vs_delete|done]. }
    intros _. apply fs_bind; done.
Qed.

(** From a snapshot of a store the pool restores that store, bound to the
    embedding model. *)
Lemma construct_of_snapshot (k : Key) (em : string) (w : World) (vs : FAISS)
    (emb : list string -> Exn + list Vec) :
  snapshot_of (key_path k) vs w ->
  get_Embeddings em = inr emb ->
  construct k em w
  = inr (mkFAISS _ emb (index vs) (docstore vs) (index_to_docstore_id vs)).
Proof. intros [Hf Hp] Hemb. unfold construct. by rewrite Hemb, Hf, Hp. Qed.

(** The end of a persisting lease: the store that the pool holds for the
    key is the store on disk. *)
Lemma persisted_at_release (k : Key) (p : path) (wd : World) (vs' : FAISS)
    (em : string) :
  pool wd !! k = Some vs' ->
  fst (vs_save_local k p wd) = inr tt ->
  let w' := add_trace [EvRelease k] (snd (vs_save_local k p wd)) in
  index_of k em w' = inr vs' /\ snapshot_of p vs' w'.
Proof.
  intros Hk Hok w'.
  destruct (vs_save_local_frame k p wd) as [Hpool _].
  split.
  - subst w'. rewrite index_of_add_trace. unfold index_of. by rewrite Hpool, Hk.
  - by apply vs_save_local_snapshot.
Qed.

(** X8: what [do_add_doc] returns normally without the opt-out is on
    disk: the snapshot in the directory of the service is the index as the
    pool holds it, and a pool that lost the entry restores from it the
    same vectors, documents and identifiers. *)
Theorem do_add_doc_persists (svc0 : FaissKBService) (docs : list Document)
    (w : World) (infos : list DocInfo) :
  let svc := do_init svc0 in
  let k := svc_key svc in
  let out := do_add_doc svc docs false w in
  fst out = inr infos ->
  exists vs',
    index_of k (embed_model svc) (snd out) = inr vs'
    /\ snapshot_of (vs_path svc) vs' (snd out)
    /\ (forall emb, get_Embeddings (embed_model svc) = inr emb ->
          construct k (embed_model svc) (snd out)
          = inr (mkFAISS _ emb (index vs') (docstore vs')
                   (index_to_docstore_id vs'))).
Proof.
  intros svc k out. subst out.
  assert (forall vs', snapshot_of (vs_path svc) vs' (snd (do_add_doc svc docs false w)) ->
            forall emb, get_Embeddings (embed_model svc) = inr emb ->
              construct k (embed_model svc) (snd (do_add_doc svc docs false w))
              = inr (mkFAISS _ emb (index vs') (docstore vs')
                       (index_to_docstore_id vs'))) as Hback.
  { intros vs' Hsnap emb Hemb. apply construct_of_snapshot; [|done].
    subst k svc. by rewrite key_path_do_init. }
  revert Hback. unfold do_add_doc. rewrite bind_run.
  destruct (index_of k (embed_model svc) w) as [e|vs] eqn:Hix.
  { by rewrite (with_vector_store_fail _ _ _ e). }
  rewrite (with_vector_store_ok _ _ _ vs) by exact Hix. fold k.
  rewrite bind_run.
  rewrite (vs_embed_documents_run _ _ _ vs) by apply pool_leased.
  cbn [fst snd].
  destruct (embeddings vs (map page_content docs)) as [e|embs]; [done|].
  rewrite bind_run.
  rewrite (vs_add_embeddings_run _ _ _ _ vs) by apply pool_leased.
  cbn [uuid_next add_trace leased set_pool fst snd].
  set (r := faiss_add_embeddings _ _ _ vs).
  destruct (fst r) as [e|ids]; [done|].
  rewrite bind_run. cbn [negb].
  match goal with
  | |- context [vs_save_local k (vs_path svc) ?x] => set (wd := x)
  end.
  assert (pool wd !! k = Some (snd r)) as Hkd
    by (subst wd; cbn; apply lookup_insert_eq).
  destruct (fst (vs_save_local k (vs_path svc) wd)) as [e|[]] eqn:Hs; [done|].
  cbn [ret fst snd]. intros Hback _.
  destruct (persisted_at_release k (vs_path svc) wd (snd r) (embed_model svc)
              Hkd Hs) as [Hix' Hsnap].
  exists (snd r). split; [done|]. split; [done|]. by apply Hback.
Qed.
(** X9: what [do_delete_doc] returns normally without the opt-out is on
    disk: the snapshot in the directory of the service is the index as the
    pool holds it after the deletion, and a pool that lost the entry
    restores from it the same vectors, documents and identifiers. *)
Theorem do_delete_doc_persists (svc0 : FaissKBService)
    (kb_file : KnowledgeFile) (w : World) (ids : list string) :
  let svc := do_init svc0 in
  let k := svc_key svc in
  let out := do_delete_doc svc kb_file false w in
  fst out = inr ids ->
  exists vs',
    index_of k (embed_model svc) (snd out) = inr vs'
    /\ snapshot_of (vs_path svc) vs' (snd out)
    /\ (forall emb, get_Embeddings (embed_model svc) = inr emb ->
          construct k (embed_model svc) (snd out)
          = inr (mkFAISS _ emb (index vs') (docstore vs')
                   (index_to_docstore_id vs'))).
Proof.
  intros svc k out. subst out.
  assert (forall vs', snapshot_of (vs_path svc) vs'
                        (snd (do_delete_doc svc kb_file false w)) ->
            forall emb, get_Embeddings (embed_model svc) = inr emb ->
              construct k (embed_model svc) (snd (do_delete_doc svc kb_file false w))
              = inr (mkFAISS _ emb (index vs') (docstore vs')
                       (index_to_docstore_id vs'))) as Hback.
  { intros vs' Hsnap emb Hemb. apply construct_of_snapshot; [|done].
    subst k svc. by rewrite key_path_do_init. }
  revert Hback. unfold do_delete_doc.
  destruct (index_of k (embed_model svc) w) as [e|vs] eqn:Hix.
  { by rewrite (with_vector_store_fail _ _ _ e). }
  rewrite (with_vector_store_ok _ _ _ vs) by exact Hix. fold k.
  rewrite bind_run.
  rewrite (vs_call_read _ _ _ vs) by apply pool_leased.
  cbn [fst snd].
  destruct (matching_ids (docstore vs) (filename kb_file)) as [e|ids0]; [done|].
  rewrite bind_run. set (wl := leased k vs w).
  assert (forall wd vs',
            pool wd !! k = Some vs' ->
            forall Hback : (forall vs'0,
              snapshot_of (vs_path svc) vs'0
                (add_trace [EvRelease k]
                   (snd ((vs_save_local k (vs_path svc) ;; ret ids0)%py wd))) ->
              forall emb, get_Embeddings (embed_model svc) = inr emb ->
                construct k (embed_model svc)
                  (add_trace [EvRelease k]
                     (snd ((vs_save_local k (vs_path svc) ;; ret ids0)%py wd)))
                = inr (mkFAISS _ emb (index vs'0) (docstore vs'0)
                         (index_to_docstore_id vs'0))),
            fst ((vs_save_local k (vs_path svc) ;; ret ids0)%py wd) = inr ids ->
            exists vs'0,
              index_of k (embed_model svc)
                (add_trace [EvRelease k]
                   (snd ((vs_save_local k (vs_path svc) ;; ret ids0)%py wd)))
              = inr vs'0
              /\ snapshot_of (vs_path svc) vs'0
                   (add_trace [EvRelease k]
                      (snd ((vs_save_local k (vs_path svc) ;; ret ids0)%py wd)))
              /\ (forall emb, get_Embeddings (embed_model svc) = inr emb ->
                    construct k (embed_model svc)
                      (add_trace [EvRelease k]
                         (snd ((vs_save_local k (vs_path svc) ;; ret ids0)%py wd)))
                    = inr (mkFAISS _ emb (index vs'0) (docstore vs'0)
                             (index_to_docstore_id vs'0)))) as Htail.
  { intros wd vs' Hkd. rewrite bind_run.
    destruct (fst (vs_save_local k (vs_path svc) wd)) as [e|[]] eqn:Hs; [done|].
    cbn [ret fst snd]. intros Hback _.
    destruct (persisted_at_release k (vs_path svc) wd vs' (embed_model svc)
                Hkd Hs) as [Hix' Hsnap].
    exists vs'. split; [done|]. split; [done|]. by apply Hback. }
  cbn [negb].
  destruct (0 <? length ids0)%nat.
  - rewrite bind_run.
    rewrite (vs_delete_run _ _ _ vs) by apply pool_leased.
    cbn [fst snd].
    destruct (fst (faiss_delete ids0 vs)) as [e|b]; [done|].
    cbn [ret fst snd]. apply (Htail _ (snd (faiss_delete ids0 vs))).
    cbn. apply lookup_insert_eq.
  - cbn [ret fst snd]. apply (Htail _ vs). apply pool_leased.
Qed.

(** X10: [save_vector_store], when it returns normally, has written the
    index of the key to the directory of the service as the pool holds
    it, without changing it; a pool that lost the entry restores from the
    snapshot the same vectors, documents and identifiers. *)
Theorem save_vector_store_persists (svc0 : FaissKBService) (w : World) :
  let svc := do_init svc0 in
  let k := svc_key svc in
  let out := save_vector_store svc w in
  fst out = inr tt ->
  exists vs,
    index_of k (embed_model svc) w = inr vs
    /\ index_of k (embed_model svc) (snd out) = inr vs
    /\ snapshot_of (vs_path svc) vs (snd out)
    /\ (forall emb, get_Embeddings (embed_model svc) = inr emb ->
          construct k (embed_model svc) (snd out)
          = inr (mkFAISS _ emb (index vs) (docstore vs)
                   (index_to_docstore_id vs))).
Proof.
  intros svc k out. subst out. unfold save_vector_store, handle_save.
  rewrite bind_run.
  destruct (index_of k (embed_model svc) w) as [e|vs] eqn:Hix.
  { by rewrite (pool_load_fail _ _ _ _ e) by exact Hix. }
  rewrite (pool_load_ok _ _ _ _ vs) by exact Hix.
  fold (svc_key svc). fold k. cbn [fst snd].
  match goal with
  | |- context [vs_save_local k (vs_path svc) ?x] => set (wd := x)
  end.
  assert (pool wd !! k = Some vs) as Hkd
    by (subst wd; cbn; apply lookup_insert_eq).
  intros Hs.
  destruct (vs_save_local_frame k (vs_path svc) wd) as [Hpool _].
  pose proof (vs_save_local_snapshot k (vs_path svc) wd vs Hkd Hs) as Hsnap.
  exists vs. split; [done|]. split.
  { unfold index_of. by rewrite Hpool, Hkd. }
  split; [done|].
  intros emb Hemb. apply construct_of_snapshot; [|done].
  subst k svc. by rewrite key_path_do_init.
Qed.
End Persisting.

(** ** Deletion at work *)
Section DeletingMore.
Context `{Collaborators} `{!Retrievers}.






End DeletingMore.

(** ** Deletion by identifier, exactly *)
Section DeleteByIdsMore.
Context `{Collaborators} `{!Retrievers}.

(** The loop of pops goes through only on distinct keys that are all
    there. *)
Lemma pop_all_inv (ids : list string) (d : list (string * Document)) :
  fst (pop_all ids d) = inr tt ->
  NoDup ids /\ forall j, In j ids -> In j (dict_keys d).
Proof.
  revert d. induction ids as [|i ids IH]; intros d.
  { intros _. split; [constructor|]. by intros j []. }
  cbn [pop_all]. unfold dict_pop.
  destruct (dict_mem i d) eqn:Hmem; [|done].
  intros Hrec. apply IH in Hrec as [Hnd Hsub].
  assert (forall j, In j ids -> In j (dict_keys d) /\ j <> i) as Hsub'.
  { intros j Hj. apply Hsub in Hj.
    apply (filter_keys_In j (fun k => negb (String.eqb i k))) in Hj
      as [Hin Hne].
    split; [done|]. apply negb_true_iff, String.eqb_neq in Hne. congruence. }
  split.
  - apply NoDup_cons. split; [|done].
    rewrite list_elem_of_In. intros Hi. by destruct (Hsub' i Hi).
  - intros j [<-|Hj]; [by apply dict_mem_In|]. by apply Hsub'.
Qed.

(** X14: on a store that keeps its invariant, [del_doc_by_ids] returns
    normally exactly when the identifiers are distinct, at least one, and
    all in the index; in particular the empty list raises [ValueError],
    for want of the guard that [do_delete_doc] has. *)
Theorem del_doc_by_ids_succeeds_iff (svc : FaissKBService) (ids : list string)
    (w : World) (vs : FAISS) :
  let out := del_doc_by_ids svc ids w in
  index_of (svc_key svc) (embed_model svc) w = inr vs ->
  store_wf vs ->
  (fst out = inr tt
   <-> ids <> [] /\ NoDup ids
       /\ forall i, In i ids -> In i (index_to_docstore_id vs))
  /\ (ids = [] -> fst out = inl ValueError).
Proof.
  intros out Hix Hwf. subst out.
  rewrite (del_doc_by_ids_run _ _ _ vs) by exact Hix. cbn [fst].
  pose proof Hwf as (Hnd & Hkeys & _).
  split; [split|].
  - intros Hok.
    assert (exists b, fst (faiss_delete ids vs) = inr b) as [b Hb].
    { destruct (fst (faiss_delete ids vs)) as [e|b]; [done|]. by exists b. }
    clear Hok. revert Hb. unfold faiss_delete.
    destruct (existsb (fun i => negb (mem_string i (index_to_docstore_id vs)))
                ids) eqn:Hmiss; [done|].
    unfold docstore_delete. cbn [docstore set_index].
    destruct (existsb (fun i => dict_mem i (docstore vs)) ids) eqn:Hov;
      cbn [negb]; [|done].
    destruct (pop_all ids (docstore vs)) as [[e|[]] d] eqn:Hpop; [done|].
    intros _.
    assert (fst (pop_all ids (docstore vs)) = inr tt) as Hp by (by rewrite Hpop).
    apply pop_all_inv in Hp as [Hndi _].
    split; [|split; [done|]].
    + intros ->. discriminate Hov.
    + intros i Hi.
      pose proof (proj1 (existsb_false _ _) Hmiss i Hi) as Hin.
      by apply negb_false_iff, mem_string_In in Hin.
  - intros (Hne & Hndi & Hsub).
    destruct (faiss_delete_ok ids vs Hne Hndi Hsub) as (Hok & _).
    { intros i Hi. rewrite Hkeys. by apply Hsub. }
    by rewrite Hok.
  - intros ->. done.
Qed.
End DeleteByIdsMore.

(** ** Clearing, and what comes after *)
Section ClearingMore.
Context `{Collaborators} `{!Retrievers}.

Lemma prefixb_diverge (a l r : path) (x y : string) :
  x <> y -> prefixb (a ++ x :: l) (a ++ y :: r) = false.
Proof.
  intros Hne. induction a as [|c a IH]; cbn.
  - by apply String.eqb_neq in Hne as ->.
  - by rewrite String.eqb_refl.
Qed.

Lemma ancestor_prefix (p q : path) :
  In q (ancestors_and_self p) -> exists r, p = q ++ r.
Proof.
  unfold ancestors_and_self. rewrite in_map_iff. intros [n [<- _]].
  exists (skipn n p). symmetry. apply firstn_skipn.
Qed.

(** What [do_clear_vs] leaves of the world, whatever its outcome. *)
Lemma do_clear_vs_frame (svc : FaissKBService) (w : World) (q : path) :
  let k := (kb_name svc, vector_name svc) in
  let out := do_clear_vs svc w in
  pool (snd out) = delete k (pool w)
  /\ (prefixb (vs_path svc) q = false ->
      ~ In q (ancestors_and_self (vs_path svc)) ->
      fs (snd out) !! q = fs w !! q).
Proof.
  intros k out. subst out. rewrite do_clear_vs_run. fold k.
  set (w1 := add_trace _ _).
  destruct (makedirs_frame (vs_path svc) true (snd (rmtree (vs_path svc) w1)))
    as (Hpool & _).
  destruct (rmtree_frame (vs_path svc) w1) as (Hpool' & _).
  split; [by rewrite Hpool, Hpool'|].
  intros Hpre Hanc. rewrite makedirs_outside by done.
  by rewrite rmtree_keeps_outside.
Qed.

(** X15: [do_clear_vs] of an initialised service touches only the
    directory of the key: the raw files in the content directory of the
    knowledge base and the pool entries of all other keys are as they
    were, whatever the outcome. *)
Theorem do_clear_vs_keeps_content (svc0 : FaissKBService) (w : World)
    (rest : path) :
  let svc := do_init svc0 in
  let out := do_clear_vs svc w in
  fs (snd out) !! (kb_path svc ++ "content" :: rest)
  = fs w !! (kb_path svc ++ "content" :: rest)
  /\ (forall k', k' <> (kb_name svc, vector_name svc) ->
        pool (snd out) !! k' = pool w !! k').
Proof.
  intros svc out.
  assert (exists vn, vs_path svc = kb_path svc ++ ["vector_store"; vn])
    as [vn Hp] by (by eexists).
  destruct (do_clear_vs_frame svc w (kb_path svc ++ "content" :: rest))
    as [Hpool Hfs].
  fold out in Hpool, Hfs. split.
  - apply Hfs.
    + rewrite Hp. by apply prefixb_diverge.
    + intros Hin. apply ancestor_prefix in Hin as [r Hr].
      rewrite Hp, <- app_assoc in Hr. apply app_inv_head in Hr.
      discriminate Hr.
  - intros k' Hne. rewrite Hpool. by apply lookup_delete_ne.
Qed.



(** X18: [do_init] is idempotent, and it makes the methods agree on
    where the index is: the key that [load_vector_store] asks the pool
    for is the key that [do_clear_vs] pops, and the directory that the
    pool restores that key from is the directory that the service saves
    to. *)
Theorem do_init_idempotent (svc : FaissKBService) :
  do_init (do_init svc) = do_init svc
  /\ svc_key (do_init svc) = (kb_name (do_init svc), vector_name (do_init svc))
  /\ key_path (svc_key (do_init svc)) = vs_path (do_init svc).
Proof.
  split; [|split].
  - unfold do_init. cbn [kb_name embed_model vector_name].
    by rewrite py_or_idem.
  - apply svc_key_do_init.
  - apply key_path_do_init.
Qed.
End ClearingMore.

(** * More of the service at work *)

(** X1 on an empty disk: the directory is made and the key is loaded with
    an empty index. *)
Lemma do_create_kb_creates_witness :
  let svc := @do_init Demo.collab Demo.svc0 in
  let out := @do_create_kb Demo.collab svc Demo.w_empty in
  @can_makedirs Demo.collab (vs_path svc) Demo.w_empty = true
  /\ @index_of Demo.collab Demo.key "bge:m3" Demo.w_empty
     = inr (@empty_store Demo.collab Demo.embed)
  /\ fst out = inr tt
  /\ pool (snd out) !! Demo.key = Some (@empty_store Demo.collab Demo.embed)
  /\ fs (snd out) !! vs_path svc = Some (@Dir Demo.collab).
Proof.
  intros svc out.
  assert (@can_makedirs Demo.collab (vs_path svc) Demo.w_empty = true)
    as H1 by reflexivity.
  assert (@index_of Demo.collab Demo.key "bge:m3" Demo.w_empty
          = inr (@empty_store Demo.collab Demo.embed)) as H2 by reflexivity.
  destruct (@do_create_kb_creates Demo.collab Demo.svc0 Demo.w_empty _ H1 H2)
    as (A & B & _ & C & _).
  exact (conj H1 (conj H2 (conj A (conj B C)))).
Defined.

(** X2 on an empty disk: the second creation changes nothing. *)
Lemma do_create_kb_idempotent_witness :
  let svc := @do_init Demo.collab Demo.svc0 in
  let w1 := snd (@do_create_kb Demo.collab svc Demo.w_empty) in
  @can_makedirs Demo.collab (vs_path svc) Demo.w_empty = true
  /\ fs (snd (@do_create_kb Demo.collab svc w1)) = fs w1
  /\ pool (snd (@do_create_kb Demo.collab svc w1)) = pool w1.
Proof.
  intros svc w1.
  assert (@can_makedirs Demo.collab (vs_path svc) Demo.w_empty = true)
    as H1 by reflexivity.
  assert (@index_of Demo.collab Demo.key "bge:m3" Demo.w_empty
          = inr (@empty_store Demo.collab Demo.embed)) as H2 by reflexivity.
  pose proof (@do_create_kb_idempotent Demo.collab Demo.svc0 Demo.w_empty _
                H1 H2) as A.
  fold svc w1 in A. split; [exact H1|]. by rewrite A.
Defined.

(** X3 on a disk where a regular file stands in the place of the root of
    the knowledge bases. *)
Lemma do_create_kb_blocked_witness :
  let svc := @do_init Demo.collab Demo.svc0 in
  fs Demo.w_blocked !! vs_path svc = None
  /\ @do_create_kb Demo.collab svc Demo.w_blocked
     = (inl NotADirectoryError, Demo.w_blocked).
Proof.
  intros svc.
  assert (fs Demo.w_blocked !! vs_path svc = None) as H1 by reflexivity.
  split; [exact H1|].
  apply (@do_create_kb_blocked Demo.collab svc Demo.w_blocked ["kb"] H1).
  - cbn. by left.
  - reflexivity.
Defined.

(** X4 on a batch of two: the two identifiers and the metadata come back
    in order. *)
Lemma do_add_doc_returns_batch_witness :
  let out := @do_add_doc Demo.collab Demo.svc Demo.pair true Demo.w_three in
  @fresh_ids Demo.collab 2 Demo.w_three = ["u"; "ui"]
  /\ exists infos,
       fst out = inr infos
       /\ map id infos = ["u"; "ui"]
       /\ map info_metadata infos = map metadata Demo.pair.
Proof.
  intros out. split; [reflexivity|].
  destruct (@do_add_doc_returns_batch Demo.collab Demo.svc Demo.pair true
              Demo.w_three (Demo.store Demo.three) [3; 3])
    as (infos & vs' & A & B & C & _).
  - reflexivity.
  - split; [|split; reflexivity]. apply (bool_decide_unpack _). by vm_compute.
  - discriminate.
  - reflexivity.
  - reflexivity.
  - apply (bool_decide_unpack _). by vm_compute.
  - intros i Hi Hin. vm_compute in Hi, Hin. intuition congruence.
  - by left.
  - exists infos. split; [exact A|]. split; [exact B|exact C].
Defined.

(** X5 on a batch of two: the two documents are found under the
    identifiers that came back. *)
Lemma do_add_doc_then_get_witness :
  let out := @do_add_doc Demo.collab Demo.svc Demo.pair true Demo.w_three in
  exists infos,
    fst out = inr infos
    /\ fst (@get_doc_by_ids Demo.collab Demo.svc (map id infos) (snd out))
       = inr (map Some Demo.pair).
Proof.
  intros out.
  apply (@do_add_doc_then_get Demo.collab Demo.svc Demo.pair true
           Demo.w_three (Demo.store Demo.three) [3; 3]).
  - reflexivity.
  - split; [|split; reflexivity]. apply (bool_decide_unpack _). by vm_compute.
  - discriminate.
  - reflexivity.
  - reflexivity.
  - apply (bool_decide_unpack _). by vm_compute.
  - intros i Hi Hin. vm_compute in Hi, Hin. intuition congruence.
  - by left.
Defined.

(** X6 on the three documents: the empty batch is refused. *)
Lemma do_add_doc_empty_batch_witness :
  Demo.embed [] = inr []
  /\ fst (@do_add_doc Demo.collab Demo.svc [] false Demo.w_three)
     = inl ValueError.
Proof.
  split; [reflexivity|].
  apply (@do_add_doc_empty_batch Demo.collab Demo.svc false Demo.w_three
           (Demo.store Demo.three) []); reflexivity.
Defined.

(** X8 on a batch of two: the snapshot on disk is the index in the pool,
    five documents. *)
Lemma do_add_doc_persists_witness :
  let svc := @do_init Demo.collab Demo.svc0 in
  let out := @do_add_doc Demo.collab svc Demo.pair false Demo.w_three in
  exists infos vs',
    fst out = inr infos
    /\ @index_of Demo.collab Demo.key "bge:m3" (snd out) = inr vs'
    /\ @snapshot_of Demo.collab (vs_path svc) vs' (snd out)
    /\ length (docstore vs') = 5.
Proof.
  intros svc out.
  assert (exists infos, fst out = inr infos) as [infos Hres].
  { eexists. vm_compute. reflexivity. }
  destruct (@do_add_doc_persists Demo.collab Demo.svc0 Demo.pair Demo.w_three
              infos Hres) as (vs' & A & B & _).
  exists infos, vs'. split; [exact Hres|]. split; [exact A|].
  split; [exact B|].
  assert (@index_of Demo.collab Demo.key "bge:m3" (snd out)
          = inr (@extended Demo.collab (Demo.store Demo.three) ["u"; "ui"]
                   Demo.pair [3; 3])) as Hix by (vm_compute; reflexivity).
  pose proof (eq_trans (eq_sym A) Hix) as E. by injection E as ->.
Defined.

(** X9 on the three documents: after the deletion of [a.txt] the snapshot
    on disk is the index in the pool, one document. *)
Lemma do_delete_doc_persists_witness :
  let svc := @do_init Demo.collab Demo.svc0 in
  let f := mkKnowledgeFile "a.txt" "samples" in
  let out := @do_delete_doc Demo.collab svc f false Demo.w_three in
  fst out = inr ["x"; "z"]
  /\ exists vs',
       @index_of Demo.collab Demo.key "bge:m3" (snd out) = inr vs'
       /\ @snapshot_of Demo.collab (vs_path svc) vs' (snd out)
       /\ @construct Demo.collab Demo.key "bge:m3" (snd out)
          = inr (@mkFAISS Demo.collab Demo.embed (index vs') (docstore vs')
                   (index_to_docstore_id vs')).
Proof.
  intros svc f out.
  assert (fst out = inr ["x"; "z"]) as Hres by (vm_compute; reflexivity).
  split; [exact Hres|].
  destruct (@do_delete_doc_persists Demo.collab Demo.svc0 f Demo.w_three _ Hres)
    as (vs' & A & B & C).
  exists vs'. split; [exact A|]. split; [exact B|]. by apply C.
Defined.

(** X10 on the three documents: the save writes them as they are. *)
Lemma save_vector_store_persists_witness :
  let svc := @do_init Demo.collab Demo.svc0 in
  let out := @save_vector_store Demo.collab svc Demo.w_three in
  fst out = inr tt
  /\ @index_of Demo.collab Demo.key "bge:m3" (snd out)
     = inr (Demo.store Demo.three)
  /\ @snapshot_of Demo.collab (vs_path svc) (Demo.store Demo.three) (snd out).
Proof.
  intros svc out.
  assert (fst out = inr tt) as Hres by (vm_compute; reflexivity).
  split; [exact Hres|].
  destruct (@save_vector_store_persists Demo.collab Demo.svc0 Demo.w_three Hres)
    as (vs & A & B & C & _).
  assert (@inr Exn _ vs = inr (Demo.store Demo.three)) as E
    by exact (eq_sym A).
  injection E as ->. exact (conj B C).
Defined.




(** X14 on the three documents: one stored identifier goes through, the
    empty list and a repeated identifier do not. *)
Lemma del_doc_by_ids_succeeds_iff_witness :
  fst (@del_doc_by_ids Demo.collab Demo.svc ["x"] Demo.w_three) = inr tt
  /\ fst (@del_doc_by_ids Demo.collab Demo.svc [] Demo.w_three)
     = inl ValueError
  /\ fst (@del_doc_by_ids Demo.collab Demo.svc ["x"; "x"] Demo.w_three)
     <> inr tt.
Proof.
  assert (@store_wf Demo.collab (Demo.store Demo.three)) as Hwf.
  { split; [|split; reflexivity]. apply (bool_decide_unpack _). by vm_compute. }
  split; [|split].
  - apply (@del_doc_by_ids_succeeds_iff Demo.collab Demo.svc ["x"]
             Demo.w_three (Demo.store Demo.three) eq_refl Hwf).
    split; [discriminate|]. split.
    + apply (bool_decide_unpack _). by vm_compute.
    + intros i [<-|[]]. vm_compute. by left.
  - by apply (@del_doc_by_ids_succeeds_iff Demo.collab Demo.svc []
                Demo.w_three (Demo.store Demo.three) eq_refl Hwf).
  - intros Hok.
    apply (@del_doc_by_ids_succeeds_iff Demo.collab Demo.svc ["x"; "x"]
             Demo.w_three (Demo.store Demo.three) eq_refl Hwf) in Hok
      as (_ & Hnd & _).
    apply NoDup_cons in Hnd as [Hni _]. apply Hni. by left.
Defined.


